(** * handle_music: a shallow embedding of the pipeline and its properties

    The development follows the layout of the repository and of the
    libraries it calls:
    - [Py]            the Python values the code manipulates: exceptions,
                      strings, [int()], binary64 floats and their
                      fixed-point formatting;
    - [ProgressBar]   resources/per_tools.py, class ProgressBar;
    - [posixpath], [FS], [fnmatch], [glob], [os]
                      paths, the file tree and the calls that act on it;
    - [per_tools]     resources/per_tools.py, [find_files];
    - [re], [json], [shared_data], [time]
                      compiled patterns, settings values, the shared
                      module-level data, [gmtime] and [strptime];
    - [actions]       resources/actions.py: [id3_correct], [file_copy],
                      [file_move], [find_uploads];
    - [handle_music]  handle_music.py: start-up and command dispatch.
    The properties follow the definitions, in the same order.

    Strings are [string]s whose characters stand for code points below 256.
    Terminal messages and the debug log of [Logger] are not part of the
    modelled state: every [terminal.write] / [debugger.write] of the source
    is dropped (the evaluation of its arguments is kept where it can
    raise), everything else is kept statement by statement. *)

From Stdlib Require Import ZArith String Ascii List Lia Bool.
From Stdlib Require Import Floats.SpecFloat.
From stdpp Require Import gmap strings list fin_maps.

Local Open Scope string_scope.
Local Open Scope list_scope.
Local Open Scope Z_scope.

(* ===================================================================== *)
(** * Python values                                                       *)
(* ===================================================================== *)

Module Py.

(** The exceptions the modelled code can raise. *)
Inductive exn : Set :=
| ZeroDivisionError
| OverflowError
| ValueError
| KeyError (key : string)
| EOFError
| FileNotFoundError
| FileExistsError
| NotADirectoryError
| IsADirectoryError
| SameFileError
| ID3NoHeaderError
| MutagenError
| TypeError
| IndexError
| OSError
| SystemExit (code : Z).

(** A computation either raises or returns. *)
Definition result (A : Type) : Type := exn + A.

Definition ret {A} (a : A) : result A := inr a.
Definition raise {A} (e : exn) : result A := inl e.
Definition bind {A B} (m : result A) (k : A -> result B) : result B :=
  match m with
  | inl e => inl e
  | inr a => k a
  end.

Declare Scope py_scope.
Delimit Scope py_scope with py.
Notation "'do' x <- m ; k" := (bind m (fun x => k))
  (at level 10, x name, m at level 100, k at level 200) : py_scope.
Local Open Scope py_scope.

Definition succeeds {A} (m : result A) : Prop := exists a, m = inr a.

(** ** Strings *)

(** [s * n] for a string [s] and an integer [n]: empty when [n <= 0]. *)
Fixpoint repeat_nat (s : string) (n : nat) : string :=
  match n with
  | O => ""
  | S n' => s +:+ repeat_nat s n'
  end.

Definition str_mul (s : string) (n : Z) : string := repeat_nat s (Z.to_nat n).

(** [s.startswith(p)] *)
Fixpoint startswith (p s : string) : bool :=
  match p, s with
  | EmptyString, _ => true
  | String a p', String b s' => (a =? b)%char && startswith p' s'
  | String _ _, EmptyString => false
  end.

(** [sub in s]: substring test. *)
Fixpoint contains (sub s : string) : bool :=
  startswith sub s ||
  match s with
  | EmptyString => false
  | String _ s' => contains sub s'
  end.

(** Decimal digits of a natural number, most significant first; [fuel]
    bounds the number of digits. *)
Fixpoint digits_fuel (fuel : nat) (n : Z) (acc : string) : string :=
  match fuel with
  | O => acc
  | S fuel' =>
      let d := ascii_of_nat (48 + Z.to_nat (n mod 10)) in
      if n <? 10 then String d acc
      else digits_fuel fuel' (n / 10) (String d acc)
  end.

(** [str(n)] for [0 <= n]. *)
Definition str_of_nonneg (n : Z) : string :=
  digits_fuel (S (Z.to_nat (Z.log2 n))) n "".

(** [s.rjust(w, '0')] for a digit string. *)
Definition zfill (w : nat) (s : string) : string :=
  repeat_nat "0" (w - String.length s) +:+ s.

(** ** Slices, searches and whitespace *)

Definition rev_string (s : string) : string :=
  string_of_list_ascii (rev (list_ascii_of_string s)).

Definition endswith (p s : string) : bool :=
  startswith (rev_string p) (rev_string s).

(** [s[:-4]]: everything but the last four characters, empty when the
    string is shorter. *)
Definition drop_last4 (s : string) : string :=
  String.substring 0 (String.length s - 4) s.

(** [str.isspace] on a code point below 256: tab to carriage return, the
    separators 28 to 31, space, NEL and the no-break space. *)
Definition is_space (c : ascii) : bool :=
  let n := nat_of_ascii c in
  ((9 <=? n) && (n <=? 13) || (28 <=? n) && (n <=? 32) || (n =? 133)
   || (n =? 160))%nat.

Fixpoint lstrip (s : string) : string :=
  match s with
  | String c s' => if is_space c then lstrip s' else s
  | EmptyString => EmptyString
  end.

Definition rstrip (s : string) : string := rev_string (lstrip (rev_string s)).

(** [s.strip()] *)
Definition strip (s : string) : string := rstrip (lstrip s).

(** [re.split(sep, s)] for a separator without metacharacters (also
    [s.split(sep)]): the pieces between the leftmost, non-overlapping
    occurrences of [sep].  [skip] counts the characters of a matched
    separator still to be passed over, [cur] holds the current piece in
    reverse. *)
Fixpoint split_go (sep : string) (skip : nat) (cur : list ascii) (s : string)
    : list string :=
  match s with
  | EmptyString => [string_of_list_ascii (rev cur)]
  | String c s' =>
      match skip with
      | S k => split_go sep k cur s'
      | O =>
          if startswith sep s
          then string_of_list_ascii (rev cur)
               :: split_go sep (String.length sep - 1) [] s'
          else split_go sep 0 (c :: cur) s'
      end
  end.

Definition split_on (sep s : string) : list string := split_go sep 0 [] s.

(** [sep.join(l)] *)
Definition join_with (sep : string) (l : list string) : string :=
  String.concat sep l.

(** A [for] loop whose body may raise. *)
Fixpoint foldM {A S : Type} (body : S -> A -> result S) (l : list A) (s : S)
    : result S :=
  match l with
  | [] => ret s
  | a :: l' => do s' <- body s a; foldM body l' s'
  end.

(** ** [int(s)] on a string *)

Definition is_digit (c : ascii) : bool :=
  ((48 <=? nat_of_ascii c) && (nat_of_ascii c <=? 57))%nat.

Definition digit_value (c : ascii) : Z := Z.of_nat (nat_of_ascii c - 48).

(** Digits, single underscores allowed between them; [prev] tells whether
    the previous character was a digit. *)
Fixpoint digits_value (acc : Z) (prev : bool) (l : list ascii) : option Z :=
  match l with
  | [] => if prev then Some acc else None
  | c :: l' =>
      if is_digit c then digits_value (10 * acc + digit_value c) true l'
      else if (c =? "_")%char && prev then digits_value acc false l'
      else None
  end.

(** [int(s)]: surrounding whitespace, an optional sign, decimal digits. *)
Definition int_of_str (s : string) : result Z :=
  let body := list_ascii_of_string (strip s) in
  let parsed := match body with
                | "-"%char :: l => option_map Z.opp (digits_value 0 false l)
                | "+"%char :: l => digits_value 0 false l
                | l => digits_value 0 false l
                end in
  match parsed with
  | Some z => ret z
  | None => raise ValueError
  end.

(** ** Floats: IEEE 754 binary64 *)

Definition prec : Z := 53.
Definition emax : Z := 1024.

Abbreviation float := spec_float.

(** [float(z)]: round to nearest, ties to even; an int beyond the range of
    a double raises OverflowError. *)
Definition float_of_int (z : Z) : result float :=
  match binary_normalize prec emax z 0 false with
  | S754_infinity _ => raise OverflowError
  | f => ret f
  end.

Definition float_is_zero (f : float) : bool :=
  match f with
  | S754_zero _ => true
  | _ => false
  end.

(** [a / b] on floats: only a zero divisor raises. *)
Definition float_div (a b : float) : result float :=
  if float_is_zero b then raise ZeroDivisionError
  else ret (SFdiv prec emax a b).

Definition float_mul (a b : float) : float := SFmul prec emax a b.

(** The double nearest to an int literal that is exactly representable. *)
Definition float_lit (z : Z) : float := binary_normalize prec emax z 0 false.

(** Round the exact rational [num / den] ([0 <= num], [0 < den]) to the
    nearest integer, ties to even. *)
Definition round_half_even (num den : Z) : Z :=
  let q := num / den in
  let r := num mod den in
  match Z.compare (2 * r) den with
  | Lt => q
  | Gt => q + 1
  | Eq => if Z.even q then q else q + 1
  end.

(** The digits of [|m * 2^e|] in fixed notation with [d] decimals, correctly
    rounded from the exact binary value. *)
Definition fixed_digits (d : Z) (m : positive) (e : Z) : string :=
  let scale := 10 ^ d in
  let n := if 0 <=? e then Z.pos m * 2 ^ e * scale
           else round_half_even (Z.pos m * scale) (2 ^ (- e)) in
  let int_part := str_of_nonneg (n / scale) in
  if d =? 0 then int_part
  else int_part +:+ "." +:+ zfill (Z.to_nat d) (str_of_nonneg (n mod scale)).

(** [("{0:." + str(d) + "f}").format(x)]: a negative [d] gives a format
    specification without a precision, which [format] refuses. *)
Definition format_f (d : Z) (x : float) : result string :=
  if d <? 0 then raise ValueError
  else
    let sign (s : bool) := if s then "-" else "" in
    ret match x with
        | S754_nan => "nan"
        | S754_infinity s => sign s +:+ "inf"
        | S754_zero s =>
            sign s +:+ (if d =? 0 then "0" else "0." +:+ repeat_nat "0" (Z.to_nat d))
        | S754_finite s m e => sign s +:+ fixed_digits d m e
        end.

End Py.

Import Py.
Local Open Scope py_scope.

(* ===================================================================== *)
(** * resources/per_tools.py: ProgressBar                                 *)
(* ===================================================================== *)

Module ProgressBar.
Import Py.

Record t : Set := mk {
  _iteration : Z;
  _total : Z;
  _prefix : string;
  _suffix : string;
  _decimals : Z;
  _length : Z;
  _fill : string
}.

(** [ProgressBar(total, prefix='', suffix='', decimals=1, length=50,
    fill='█')]. *)
Definition __init__ (total : Z) (prefix suffix : string) (decimals length : Z)
    (fill : string) : t :=
  mk 0 total prefix suffix decimals length fill.

Definition default_fill : string := "█".

(** [ProgressBar(total)] with every default. *)
Definition new (total : Z) : t := __init__ total "" "" 1 50 default_fill.

(** The argument of [format] in [print]:
    [100 * (self._iteration / float(self._total))]. *)
Definition percent_value (self : t) : result float :=
  do total <- float_of_int (_total self);
  do iteration <- float_of_int (_iteration self);
  do ratio <- float_div iteration total;
  ret (float_mul (float_lit 100) ratio).

(** The local [percent] of [print]. *)
Definition percent (self : t) : result string :=
  do v <- percent_value self;
  format_f (_decimals self) v.

(** [print]: the characters written to standard output. *)
Definition print (self : t) : result string :=
  do percent <- percent self;
  let filled_length := (_length self * _iteration self) / _total self in
  let bar := str_mul (_fill self) filled_length
             +:+ str_mul "-" (_length self - filled_length) in
  let line := String "013" (_prefix self +:+ " |" +:+ bar +:+ "| " +:+ percent
                            +:+ "% " +:+ _suffix self) +:+ String "013" "" in
  ret (if _total self <=? _iteration self then line +:+ String "010" "" else line).

Definition increment (self : t) : t :=
  mk (_iteration self + 1) (_total self) (_prefix self) (_suffix self)
     (_decimals self) (_length self) (_fill self).

(** [inc_and_print]: the new state of the bar and what was written. *)
Definition inc_and_print (self : t) : result (t * string) :=
  let self' := increment self in
  do out <- print self';
  ret (self', out).

End ProgressBar.



(* ===================================================================== *)
(** * posixpath                                                           *)
(* ===================================================================== *)

Module posixpath.
Import Py.

(** [os.path.join(a, b)]: an absolute [b] discards [a]; otherwise the
    two are separated by exactly one slash unless [a] is empty or already
    ends with one. *)
Definition join (a b : string) : string :=
  if startswith "/" b then b
  else if (a =? "")%string || endswith "/" a then a +:+ b
  else a +:+ "/" +:+ b.

(** [os.path.join(a, b, c)]: the same loop run over two components. *)
Definition join3 (a b c : string) : string := join (join a b) c.

Definition is_slash (c : ascii) : bool := (c =? "/")%char.

Fixpoint drop_slashes (l : list ascii) : list ascii :=
  match l with
  | c :: l' => if is_slash c then drop_slashes l' else l
  | [] => []
  end.

(** The reversed tail and the reversed head of a reversed path: the cut is
    after the last slash. *)
Fixpoint cut_at_slash (r : list ascii) : list ascii * list ascii :=
  match r with
  | [] => ([], [])
  | c :: r' =>
      if is_slash c then ([], r)
      else let (tl, hd) := cut_at_slash r' in (c :: tl, hd)
  end.

(** [os.path.split(p)]: [head] loses its trailing slashes unless it consists
    of slashes only. *)
Definition split (p : string) : string * string :=
  let (tl, hd) := cut_at_slash (rev (list_ascii_of_string p)) in
  let hd' := match drop_slashes hd with
             | [] => hd
             | stripped => stripped
             end in
  (string_of_list_ascii (rev hd'), string_of_list_ascii (rev tl)).

(** [os.path.basename(p)] *)
Definition basename (p : string) : string :=
  string_of_list_ascii (rev (fst (cut_at_slash (rev (list_ascii_of_string p))))).

(** [os.path.normpath(path)] *)
Fixpoint norm_comps (absolute : bool) (new_comps : list string)
    (comps : list string) : list string :=
  match comps with
  | [] => rev new_comps
  | comp :: comps' =>
      if (comp =? "")%string || (comp =? ".")%string
      then norm_comps absolute new_comps comps'
      else if negb (comp =? "..")%string
        then norm_comps absolute (comp :: new_comps) comps'
      else match new_comps with
           | [] => if absolute then norm_comps absolute [] comps'
                   else norm_comps absolute [comp] comps'
           | last :: before =>
               if (last =? "..")%string
               then norm_comps absolute (comp :: new_comps) comps'
               else norm_comps absolute before comps'
           end
  end.

Definition normpath (path : string) : string :=
  if (path =? "")%string then "."
  else
    let initial_slashes :=
      if startswith "/" path then
        if startswith "//" path && negb (startswith "///" path) then "//"
        else "/"
      else "" in
    let comps := norm_comps (startswith "/" path) [] (split_on "/" path) in
    let path := initial_slashes +:+ join_with "/" comps in
    if (path =? "")%string then "." else path.

(** [os.path.abspath(path)] in the working directory [cwd]. *)
Definition abspath (cwd : string) (path : string) : string :=
  normpath (if startswith "/" path then path else join cwd path).

(** The text before and from the first slash found at index 1 or later. *)
Fixpoint cut_user (s : string) : string * string :=
  match s with
  | EmptyString => ("", "")
  | String c s' =>
      if is_slash c then ("", s)
      else let (u, rest) := cut_user s' in (String c u, rest)
  end.

(** [os.path.expanduser(path)]: [home] is the home directory of the
    current user when it can be found, [passwd] gives the home of the
    users named by [~user]. *)
Definition expanduser (home : option string) (passwd : gmap string string)
    (path : string) : string :=
  match path with
  | String "~" after =>
      let (user, rest) := cut_user after in
      let userhome := if (user =? "")%string then home else passwd !! user in
      match userhome with
      | None => path
      | Some userhome =>
          let userhome :=
            rev_string (string_of_list_ascii
                          (drop_slashes (rev (list_ascii_of_string userhome)))) in
          let expanded := userhome +:+ rest in
          if (expanded =? "")%string then "/" else expanded
      end
  | _ => path
  end.

End posixpath.

(* ===================================================================== *)
(** * The file tree the operating-system calls act on                     *)
(* ===================================================================== *)

Module FS.
Import Py.

(** A canonical absolute path: the names from the root down. *)
Definition path : Type := list string.

(** A regular file: its ID3 header (the EasyID3 view of it: key to list of
    values) when it has one, its modification time in whole seconds since
    the epoch, and the rest of its bytes. *)
Record file : Type := mk_file {
  id3 : option (gmap string (list string));
  mtime : Z;
  content : string
}.

Inductive node : Type :=
| Dir (mtime : Z)
| Reg (f : file).

(** The tree as a finite map from canonical paths to nodes (the root is a
    directory and has no entry), the working directory of the process and
    the wall clock. There are no symbolic links. *)
Record t : Type := mk {
  nodes : gmap path node;
  cwd : path;
  clock : Z
}.

Definition with_nodes (st : t) (m : gmap path node) : t :=
  mk m (cwd st) (clock st).

Definition lookup (st : t) (p : path) : option node :=
  match p with
  | [] => Some (Dir 0)
  | _ => nodes st !! p
  end.

(** Path resolution, one component at a time: the directory a component
    is looked up in must exist and be a directory. *)
Fixpoint namei (st : t) (cur : path) (cs : list string) : result path :=
  match cs with
  | [] => ret cur
  | c :: cs' =>
      match lookup st cur with
      | None => raise FileNotFoundError
      | Some (Reg _) => raise NotADirectoryError
      | Some (Dir _) =>
          if (c =? ".")%string then namei st cur cs'
          else if (c =? "..")%string then namei st (removelast cur) cs'
          else namei st (cur ++ [c]) cs'
      end
  end.

Definition components (s : string) : list string :=
  List.filter (fun c => negb (c =? "")%string) (split_on "/" s).

(** The canonical path a string names (whether or not anything is there)
    and whether the string ends with a slash. *)
Definition resolve (st : t) (s : string) : result (path * bool) :=
  if (s =? "")%string then raise FileNotFoundError
  else
    do p <- namei st (if startswith "/" s then [] else cwd st) (components s);
    ret (p, endswith "/" s).

(** [os.stat] *)
Definition stat (st : t) (s : string) : result node :=
  do r <- resolve st s;
  match lookup st (fst r) with
  | None => raise FileNotFoundError
  | Some (Reg f) => if snd r then raise NotADirectoryError else ret (Reg f)
  | Some d => ret d
  end.

(** [os.path.exists], [os.path.isdir]: False on any OSError. *)
Definition exists_ (st : t) (s : string) : bool :=
  match stat st s with
  | inr _ => true
  | inl _ => false
  end.

Definition isdir (st : t) (s : string) : bool :=
  match stat st s with
  | inr (Dir _) => true
  | _ => false
  end.

(** [os.path.samefile], False when either side cannot be stat'ed. *)
Definition samefile (st : t) (a b : string) : bool :=
  match stat st a, stat st b, resolve st a, resolve st b with
  | inr _, inr _, inr ra, inr rb => bool_decide (fst ra = fst rb)
  | _, _, _, _ => false
  end.

(** The entries of the directory at [p]. *)
Definition child_of (p : path) (e : path * node) : option (string * node) :=
  match last (fst e) with
  | Some name => if bool_decide (fst e = p ++ [name]) then Some (name, snd e)
                 else None
  | None => None
  end.

Definition children (st : t) (p : path) : list (string * node) :=
  omap (child_of p) (map_to_list (nodes st)).

(** [os.scandir] *)
Definition scandir (st : t) (s : string) : result (list (string * node)) :=
  do n <- stat st s;
  do r <- resolve st s;
  match n with
  | Dir _ => ret (children st (fst r))
  | Reg _ => raise NotADirectoryError
  end.

(** [os.path.getmtime] *)
Definition getmtime (st : t) (s : string) : result Z :=
  do n <- stat st s;
  ret match n with
      | Dir m => m
      | Reg f => mtime f
      end.

(** [os.mkdir] *)
Definition mkdir (st : t) (s : string) : result t :=
  do r <- resolve st s;
  match lookup st (fst r) with
  | Some _ => raise FileExistsError
  | None => ret (with_nodes st (<[fst r := Dir (clock st)]> (nodes st)))
  end.

(** Moving the subtree rooted at [src] to [dst]. *)
Definition rekey (src dst q : path) : path :=
  if bool_decide (src `prefix_of` q) then dst ++ drop (length src) q else q.

Definition move_tree (src dst : path) (m : gmap path node) : gmap path node :=
  list_to_map (map (fun e => (rekey src dst (fst e), snd e)) (map_to_list m)).

(** [os.rename]: a regular file silently replaces a regular file; a
    directory replaces only an empty directory and cannot be moved into
    itself. *)
Definition rename (st : t) (src dst : string) : result t :=
  do n <- stat st src;
  do rs <- resolve st src;
  do rd <- resolve st dst;
  let ps := fst rs in
  let pd := fst rd in
  match n with
  | Reg f =>
      match lookup st pd with
      | Some (Dir _) => raise IsADirectoryError
      | _ =>
          if snd rd then raise NotADirectoryError
          else if bool_decide (ps = pd) then ret st
          else ret (with_nodes st (<[pd := Reg f]> (delete ps (nodes st))))
      end
  | Dir _ =>
      match lookup st pd with
      | Some (Reg _) => raise NotADirectoryError
      | other =>
          if bool_decide (ps = pd) then ret st
          else if bool_decide (ps `prefix_of` pd) then raise OSError
          else match other, children st pd with
               | Some _, _ :: _ => raise OSError
               | _, _ => ret (with_nodes st (move_tree ps pd (delete pd (nodes st))))
               end
      end
  end.

(** [shutil.copy2(src, dst)]: into [dst] when it is a directory; the copy
    carries the content, the tags and the times of the source. *)
Definition copy2 (st : t) (src dst : string) : result t :=
  let dst := if isdir st dst then posixpath.join dst (posixpath.basename src)
             else dst in
  if samefile st src dst then raise SameFileError
  else
    do n <- stat st src;
    match n with
    | Dir _ => raise IsADirectoryError
    | Reg f =>
        do rd <- resolve st dst;
        match lookup st (fst rd) with
        | Some (Dir _) => raise IsADirectoryError
        | _ =>
            if snd rd then raise IsADirectoryError
            else ret (with_nodes st (<[fst rd := Reg f]> (nodes st)))
        end
    end.

(** [os.unlink] *)
Definition unlink (st : t) (s : string) : result t :=
  do n <- stat st s;
  do r <- resolve st s;
  match n with
  | Dir _ => raise IsADirectoryError
  | Reg _ => ret (with_nodes st (delete (fst r) (nodes st)))
  end.

(** [shutil.move(src, dst)]: into [dst] when it is a directory, where
    nothing of that name may exist yet; a rename, and when the rename is
    refused a copy followed by the removal of the source. Copying a
    directory tree is not modelled: a directory that cannot be renamed
    raises. *)
Definition move (st : t) (src dst : string) : result t :=
  let fallback (real_dst : string) :=
    match rename st src real_dst with
    | inr st' => ret st'
    | inl _ =>
        if isdir st src then raise OSError
        else do st' <- copy2 st src real_dst; unlink st' src
    end in
  if isdir st dst then
    if samefile st src dst then rename st src dst
    else
      let real_dst :=
        posixpath.join dst (posixpath.basename
                              (rev_string (string_of_list_ascii
                                 (posixpath.drop_slashes
                                    (rev (list_ascii_of_string src)))))) in
      if exists_ st real_dst then raise OSError else fallback real_dst
  else fallback dst.

(** [EasyID3(file)]: the tags of the file; mutagen raises its own errors
    when the file cannot be opened or carries no ID3 header. *)
Definition EasyID3 (st : t) (file : string) : result (gmap string (list string)) :=
  match stat st file with
  | inr (Reg f) =>
      match id3 f with
      | Some tags => ret tags
      | None => raise ID3NoHeaderError
      end
  | _ => raise MutagenError
  end.

(** [tags.save()] for tags opened from [file]. *)
Definition save (st : t) (file : string) (tags : gmap string (list string))
    : result t :=
  match stat st file, resolve st file with
  | inr (Reg f), inr r =>
      ret (with_nodes st
             (<[fst r := Reg (mk_file (Some tags) (clock st) (content f))]>
                (nodes st)))
  | _, _ => raise MutagenError
  end.

End FS.

(* ===================================================================== *)
(** * fnmatch, glob and os.walk                                           *)
(* ===================================================================== *)

Module fnmatch.
Import Py.

(** A shell pattern, as [fnmatch.translate] reads it. *)
Inductive item : Set :=
| Star
| Any
| Lit (c : ascii)
| Class (negated : bool) (ranges : list (ascii * ascii)).

(** The members of a bracket expression: [a-b] is a range, any other
    character stands for itself. *)
Fixpoint class_ranges (stuff : list ascii) : list (ascii * ascii) :=
  match stuff with
  | lo :: rest =>
      match rest with
      | "-"%char :: hi :: rest' => (lo, hi) :: class_ranges_skip rest'
      | _ => (lo, lo) :: class_ranges rest
      end
  | [] => []
  end
with class_ranges_skip (stuff : list ascii) : list (ascii * ascii) :=
  match stuff with
  | c :: rest => (c, c) :: class_ranges rest
  | [] => []
  end.

(** The position of the bracket that closes an expression, counted in the
    text after the first member. *)
Fixpoint find_close (l : list ascii) : option nat :=
  match l with
  | [] => None
  | c :: l' => if (c =? "]")%char then Some O
               else option_map S (find_close l')
  end.

(** After an opening bracket: the expression and the rest of the pattern,
    or None when no bracket closes it and the opening one is literal. *)
Definition parse_class (l : list ascii) : option (item * list ascii) :=
  let (negated, l1) := match l with
                       | "!"%char :: l' => (true, l')
                       | _ => (false, l)
                       end in
  match l1 with
  | [] => None
  | first :: l2 =>
      match find_close l2 with
      | None => None
      | Some k =>
          Some (Class negated (class_ranges (first :: take k l2)),
                drop (S k) l2)
      end
  end.

Fixpoint translate_fuel (fuel : nat) (l : list ascii) : list item :=
  match fuel, l with
  | O, _ | _, [] => []
  | S fuel', c :: l' =>
      if (c =? "*")%char then Star :: translate_fuel fuel' l'
      else if (c =? "?")%char then Any :: translate_fuel fuel' l'
      else if (c =? "[")%char then
        match parse_class l' with
        | Some (cl, rest) => cl :: translate_fuel fuel' rest
        | None => Lit c :: translate_fuel fuel' l'
        end
      else Lit c :: translate_fuel fuel' l'
  end.

Definition translate (pat : string) : list item :=
  translate_fuel (String.length pat) (list_ascii_of_string pat).

Definition in_range (c : ascii) (r : ascii * ascii) : bool :=
  ((nat_of_ascii (fst r) <=? nat_of_ascii c)
   && (nat_of_ascii c <=? nat_of_ascii (snd r)))%nat.

Definition matches1 (i : item) (c : ascii) : bool :=
  match i with
  | Star | Any => true
  | Lit c' => (c =? c')%char
  | Class negated ranges => xorb negated (existsb (in_range c) ranges)
  end.

(** The whole of [s] against the pattern. *)
Fixpoint matches (items : list item) : list ascii -> bool :=
  match items with
  | [] => fun s => match s with [] => true | _ => false end
  | Star :: items' =>
      fix star (s : list ascii) : bool :=
        matches items' s || match s with
                            | [] => false
                            | _ :: s' => star s'
                            end
  | i :: items' =>
      fun s => match s with
               | c :: s' => matches1 i c && matches items' s'
               | [] => false
               end
  end.

(** [fnmatch.fnmatch(name, pat)] on POSIX, where case is kept. *)
Definition fnmatch (name pat : string) : bool :=
  matches (translate pat) (list_ascii_of_string name).

End fnmatch.

Module glob.
Import Py.

(** [glob.has_magic] *)
Definition has_magic (s : string) : bool :=
  existsb (fun c => (c =? "*")%char || (c =? "?")%char || (c =? "[")%char)
          (list_ascii_of_string s).

Definition _ishidden (name : string) : bool := startswith "." name.

Definition is_dir_node (n : FS.node) : bool :=
  match n with
  | FS.Dir _ => true
  | FS.Reg _ => false
  end.

(** [glob._glob1]: the names in [dirname] that match [pattern]; names with
    a leading dot only for a pattern with a leading dot. *)
Definition _glob1 (st : FS.t) (dirname pattern : string) (dironly : bool)
    : list string :=
  match FS.scandir st (if (dirname =? "")%string then "." else dirname) with
  | inl _ => []
  | inr entries =>
      let kept := List.filter (fun e => implb dironly (is_dir_node (snd e)))
                              entries in
      let names := map fst kept in
      let names := if _ishidden pattern then names
                   else List.filter (fun x => negb (_ishidden x)) names in
      List.filter (fun x => fnmatch.fnmatch x pattern) names
  end.

Definition _join (dirname basename : string) : string :=
  if (dirname =? "")%string || (basename =? "")%string
  then (if (dirname =? "")%string then basename else dirname)
  else posixpath.join dirname basename.

(** [glob._glob0]: a basename without wildcards. *)
Definition _glob0 (st : FS.t) (dirname basename : string) (dironly : bool)
    : list string :=
  if negb (basename =? "")%string then
    if FS.exists_ st (_join dirname basename) then [basename] else []
  else if FS.isdir st dirname then [basename] else [].

(** [glob._iglob] without the recursive double star; the recursion is on
    the directory part, which is shorter than the pattern. *)
Fixpoint _iglob (fuel : nat) (st : FS.t) (pathname : string) (dironly : bool)
    : list string :=
  match fuel with
  | O => []
  | S fuel' =>
      let (dirname, basename) := posixpath.split pathname in
      if negb (has_magic pathname) then
        if negb (basename =? "")%string then
          if FS.exists_ st pathname then [pathname] else []
        else if FS.isdir st dirname then [pathname] else []
      else if (dirname =? "")%string then _glob1 st "" basename dironly
      else
        let dirs := if negb (dirname =? pathname)%string && has_magic dirname
                    then _iglob fuel' st dirname true
                    else [dirname] in
        let glob_in_dir := if has_magic basename then _glob1 else _glob0 in
        flat_map (fun dirname =>
                    map (posixpath.join dirname)
                        (glob_in_dir st dirname basename dironly))
                 dirs
  end.

(** [glob.glob(pathname, recursive=False)] *)
Definition glob (st : FS.t) (pathname : string) : list string :=
  _iglob (S (String.length pathname)) st pathname false.

End glob.

Module os.
Import Py.

(** The directory paths [os.walk] yields, top down: [tuple_[0]] of every
    tuple.  A directory that cannot be listed yields nothing. *)
Fixpoint walk_fuel (fuel : nat) (st : FS.t) (top : string) : list string :=
  match fuel with
  | O => []
  | S fuel' =>
      match FS.scandir st top with
      | inl _ => []
      | inr entries =>
          let dirs := map fst (List.filter (fun e => glob.is_dir_node (snd e))
                                           entries) in
          top :: flat_map (fun dirname =>
                             walk_fuel fuel' st (posixpath.join top dirname))
                          dirs
      end
  end.

(** No directory lies deeper than the longest path of the tree. *)
Definition depth_bound (st : FS.t) : nat :=
  S (foldr (fun e acc => Nat.max (length (fst e)) acc) O
           (map_to_list (FS.nodes st))).

Definition walk (st : FS.t) (top : string) : list string :=
  walk_fuel (depth_bound st) st top.

End os.

(* ===================================================================== *)
(** * resources/per_tools.py: find_files                                  *)
(* ===================================================================== *)

Module per_tools.
Import Py.

(** [range(0, depth)] *)
Definition range0 (depth : Z) : list Z := seqZ 0 depth.

(** [find_files(source, pattern, depth=None)] *)
Definition find_files (st : FS.t) (source pattern : string) (depth : option Z)
    : list string :=
  match depth with
  | None =>
      flat_map (fun tuple_0 => glob.glob st (posixpath.join tuple_0 pattern))
               (os.walk st source)
  | Some depth =>
      flat_map (fun depth_level =>
                  glob.glob st (posixpath.join3 source
                                                (str_mul "/*" depth_level)
                                                pattern))
               (range0 depth)
  end.

End per_tools.

(* ===================================================================== *)
(** * Compiled patterns, settings and the shared data                     *)
(* ===================================================================== *)

Module re.
Import Py.

(** A compiled pattern object, through the two methods the code calls on
    it: [re.search(p, s)] as a truth value and [re.sub(p, repl, s)]. *)
Record pattern : Type := mk {
  search : string -> bool;
  sub : string -> string -> string
}.

(** Lower case of an ASCII letter, as IGNORECASE compares. *)
Definition lower (c : ascii) : ascii :=
  let n := nat_of_ascii c in
  if ((65 <=? n) && (n <=? 90))%nat then ascii_of_nat (n + 32) else c.

Fixpoint prefix_ci (p s : string) : bool :=
  match p, s with
  | EmptyString, _ => true
  | String a p', String b s' => (lower a =? lower b)%char && prefix_ci p' s'
  | String _ _, EmptyString => false
  end.

Fixpoint search_ci (p s : string) : bool :=
  prefix_ci p s ||
  match s with
  | EmptyString => false
  | String _ s' => search_ci p s'
  end.

(** Replacing the leftmost, non-overlapping occurrences of [p]; [skip]
    counts the characters of an occurrence still to be passed over. *)
Fixpoint sub_ci (p repl : string) (skip : nat) (s : string) : string :=
  match s with
  | EmptyString => EmptyString
  | String c s' =>
      match skip with
      | S k => sub_ci p repl k s'
      | O => if prefix_ci p s
             then repl +:+ sub_ci p repl (String.length p - 1) s'
             else String c (sub_ci p repl 0 s')
      end
  end.

(** [re.compile(p, re.IGNORECASE)] for a non-empty ASCII [p] without
    metacharacters. *)
Definition literal (p : string) : pattern :=
  mk (search_ci p) (fun repl s => sub_ci p repl 0 s).

End re.

Module json.

(** The values of a flat JSON document. *)
Inductive value : Set :=
| Null
| Bool (b : bool)
| Num (z : Z)
| Str (s : string).

End json.

Module shared_data.
Import Py.

(** resources/shared_data.py: the module-level variables the actions
    read.  [source] is None until an action has asked for it. *)
Record t : Type := mk {
  settings : gmap string json.value;
  and_ : re.pattern;
  feat : re.pattern;
  feat2 : re.pattern;
  invalid : re.pattern;
  source : option string
}.

Definition with_source (sd : t) (src : string) : t :=
  mk (settings sd) (and_ sd) (feat sd) (feat2 sd) (invalid sd) (Some src).

Definition with_settings (sd : t) (m : gmap string json.value) : t :=
  mk m (and_ sd) (feat sd) (feat2 sd) (invalid sd) (source sd).

End shared_data.

(** The document stored at [sd.CONFIG_PATH]. *)
Inductive config_file : Type :=
| NoDirectory
| NoFile
| Document (d : gmap string json.value).

(** Everything the script reads and writes: the file tree, the settings
    document, the lines still to be read from standard input and the
    shared data; besides, what [os.path.expanduser] consults. *)
Record world : Type := mk_world {
  fs : FS.t;
  config : config_file;
  stdin : list string;
  sd : shared_data.t;
  home : option string;
  passwd : gmap string string
}.

Definition with_fs (w : world) (st : FS.t) : world :=
  mk_world st (config w) (stdin w) (sd w) (home w) (passwd w).
Definition with_stdin (w : world) (l : list string) : world :=
  mk_world (fs w) (config w) l (sd w) (home w) (passwd w).
Definition with_sd (w : world) (d : shared_data.t) : world :=
  mk_world (fs w) (config w) (stdin w) d (home w) (passwd w).
Definition with_config (w : world) (c : config_file) : world :=
  mk_world (fs w) c (stdin w) (sd w) (home w) (passwd w).

(* ===================================================================== *)
(** * time: struct_time, gmtime and strptime                              *)
(* ===================================================================== *)

Module time.
Import Py.

(** A [struct_time] is compared as the tuple [(tm_year, tm_mon, tm_mday,
    tm_hour, tm_min, tm_sec, tm_wday, tm_yday, tm_isdst)]. *)
Definition struct_time : Type := list Z.

(** [a > b] on tuples: the first differing position decides; a longer
    tuple is greater than its prefix. *)
Fixpoint tuple_gt (a b : list Z) : bool :=
  match a, b with
  | x :: a', y :: b' => if x =? y then tuple_gt a' b' else y <? x
  | _ :: _, [] => true
  | [], _ => false
  end.

Definition is_leap (y : Z) : bool :=
  ((y mod 4 =? 0) && negb (y mod 100 =? 0)) || (y mod 400 =? 0).

Definition days_in_month (y m : Z) : Z :=
  if m =? 2 then (if is_leap y then 29 else 28)
  else if (m =? 4) || (m =? 6) || (m =? 9) || (m =? 11) then 30
  else 31.

(** Days from 1970-01-01 to the given civil date. *)
Definition days_from_civil (y m d : Z) : Z :=
  let y' := if m <=? 2 then y - 1 else y in
  let era := y' / 400 in
  let yoe := y' - era * 400 in
  let mp := if 2 <? m then m - 3 else m + 9 in
  let doy := (153 * mp + 2) / 5 + d - 1 in
  let doe := yoe * 365 + yoe / 4 - yoe / 100 + doy in
  era * 146097 + doe - 719468.

(** The civil date of a day count from 1970-01-01. *)
Definition civil_from_days (days : Z) : Z * Z * Z :=
  let z := days + 719468 in
  let era := z / 146097 in
  let doe := z - era * 146097 in
  let yoe := (doe - doe / 1460 + doe / 36524 - doe / 146096) / 365 in
  let doy := doe - (365 * yoe + yoe / 4 - yoe / 100) in
  let mp := (5 * doy + 2) / 153 in
  let d := doy - (153 * mp + 2) / 5 + 1 in
  let m := if mp <? 10 then mp + 3 else mp - 9 in
  let y := yoe + era * 400 in
  (if m <=? 2 then y + 1 else y, m, d).

(** Monday is 0; 1970-01-01 was a Thursday. *)
Definition weekday (days : Z) : Z := (days + 3) mod 7.

Definition yday (y m d : Z) : Z :=
  days_from_civil y m d - days_from_civil y 1 1 + 1.

(** [time.gmtime(secs)]: UTC, [tm_isdst] is 0. *)
Definition gmtime (secs : Z) : struct_time :=
  let days := secs / 86400 in
  let rem := secs mod 86400 in
  let '(y, m, d) := civil_from_days days in
  [y; m; d; rem / 3600; (rem mod 3600) / 60; rem mod 60; weekday days;
   yday y m d; 0].

(** One or two digits without sign, as the directives [%d] and [%m] read
    them: [1]..[9], [01]..[09] and the two-digit values up to [hi]. *)
Definition field (hi : Z) (s : string) : option Z :=
  match list_ascii_of_string s with
  | [a] => if is_digit a && negb (a =? "0")%char then Some (digit_value a)
           else None
  | [a; b] =>
      let v := 10 * digit_value a + digit_value b in
      if is_digit a && is_digit b && (1 <=? v) && (v <=? hi) then Some v
      else None
  | _ => None
  end.

(** [%y]: exactly two digits; 69..99 are 1969..1999, 00..68 are 2000..2068. *)
Definition year2 (s : string) : option Z :=
  match list_ascii_of_string s with
  | [a; b] =>
      if is_digit a && is_digit b then
        let v := 10 * digit_value a + digit_value b in
        Some (if 69 <=? v then 1900 + v else 2000 + v)
      else None
  | _ => None
  end.

(** [time.strptime(s, "%d/%m/%y")]: midnight of the day, [tm_isdst] is -1;
    a string of another shape or a day the month does not have raises
    ValueError. *)
Definition strptime (s : string) : result struct_time :=
  match split_on "/" s with
  | [ds; ms; ys] =>
      match field 31 ds, field 12 ms, year2 ys with
      | Some d, Some m, Some y =>
          if d <=? days_in_month y m then
            ret [y; m; d; 0; 0; 0; weekday (days_from_civil y m d);
                 yday y m d; -1]
          else raise ValueError
      | _, _, _ => raise ValueError
      end
  | _ => raise ValueError
  end.

End time.

(* ===================================================================== *)
(** * resources/actions.py                                                *)
(* ===================================================================== *)

Module actions.
Import Py.

(** [d[k]] on the settings dictionary. *)
Definition getitem (d : gmap string json.value) (k : string)
    : result json.value :=
  match d !! k with
  | Some v => ret v
  | None => raise (KeyError k)
  end.

(** A path handed to [os.path.exists] must be a string. *)
Definition as_path (v : json.value) : result string :=
  match v with
  | json.Str s => ret s
  | _ => raise TypeError
  end.

(** [x = input(...); if not x: x = default], on a line already read. *)
Definition or_default (default : json.value) (line : string) : json.value :=
  if (line =? "")%string then default else json.Str line.

(** [while not os.path.exists(x): x = input(...); if not x: x = default]:
    the accepted path and the lines left on standard input. *)
Fixpoint ask_existing (st : FS.t) (default current : json.value)
    (lines : list string) : result (string * list string) :=
  do x <- as_path current;
  if FS.exists_ st x then ret (x, lines)
  else match lines with
       | [] => raise EOFError
       | l :: rest => ask_existing st default (or_default default l) rest
       end.

(** The same loop without a default, as [find_uploads] asks for its
    destination. *)
Fixpoint ask_existing_plain (st : FS.t) (current : string)
    (lines : list string) : result (string * list string) :=
  if FS.exists_ st current then ret (current, lines)
  else match lines with
       | [] => raise EOFError
       | l :: rest => ask_existing_plain st l rest
       end.

(** [while rec_depth and int(rec_depth) <= 0: rec_depth = input(...)]
    followed by the conversion: None for an empty answer. *)
Fixpoint ask_depth (rec_depth : string) (lines : list string)
    : result (option Z * list string) :=
  if (rec_depth =? "")%string then ret (None, lines)
  else
    do n <- int_of_str rec_depth;
    if n <=? 0 then
      match lines with
      | [] => raise EOFError
      | l :: rest => ask_depth l rest
      end
    else ret (Some n, lines).

(** [input(...)]: the next line of standard input. *)
Definition input (w : world) : result (string * world) :=
  match stdin w with
  | [] => raise EOFError
  | l :: rest => ret (l, with_stdin w rest)
  end.

(** Asking for a directory with the setting [key] as default: the prompt
    shows the default first, so a missing key raises before anything is
    read. *)
Definition request_directory (key : string) (w : world)
    : result (string * world) :=
  do default <- getitem (shared_data.settings (sd w)) key;
  do r <- input w;
  let (line, w) := r in
  do r <- ask_existing (fs w) default (or_default default line) (stdin w);
  let (dir, lines) := r in
  ret (dir, with_stdin w lines).

(** "Request source directory", the opening of every action: with no file
    list the source and the recursion depth are asked for and the files
    searched; with a file list the source of the previous action is
    taken, which is None if there was none. *)
Definition request_source (files : option (list string)) (w : world)
    : result (list string * option string * world) :=
  match files with
  | None =>
      do r <- request_directory "source" w;
      let (source, w) := r in
      do r <- input w;
      let (rec_depth, w) := r in
      do r <- ask_depth rec_depth (stdin w);
      let (rec_depth, lines) := r in
      let w := with_stdin w lines in
      let files := per_tools.find_files (fs w) source "*.mp3" rec_depth in
      ret (files, Some source,
           with_sd w (shared_data.with_source (sd w) source))
  | Some files => ret (files, shared_data.source (sd w), w)
  end.

(** [os.path.join(source, ...)] raises TypeError on None. *)
Definition join_source (source : option string) (b c : string)
    : result string :=
  match source with
  | Some s => ret (posixpath.join3 s b c)
  | None => raise TypeError
  end.

(** ** id3_correct *)

(** The state of the loop: the tree, [result] and the progress bar. *)
Definition id3_state : Type := FS.t * list string * ProgressBar.t.

(** The name the file is given before anything else: both feature
    markers rewritten. *)
Definition normalise (sd : shared_data.t) (basename : string) : string :=
  re.sub (shared_data.feat2 sd) "(ft. "
         (re.sub (shared_data.feat sd) " ft. " basename).

(** The test that sends a file to [_invalid]. *)
Definition is_invalid (sd : shared_data.t) (basename : string) : bool :=
  re.search (shared_data.invalid sd) basename
  || negb (length (split_on " - " basename) =? 2)%nat.

(** The body of [for file in files]. *)
Definition id3_body (sd : shared_data.t) (source : option string)
    (s : id3_state) (file : string) : result id3_state :=
  let '(st, result, pg) := s in
  let (head, basename) := posixpath.split file in
  let basename := normalise sd basename in
  let tmp_file := posixpath.join head basename in
  do st <- FS.rename st file tmp_file;
  let file := tmp_file in
  let tags := split_on " - " basename in
  if is_invalid sd basename then
    do target <- join_source source "_invalid" basename;
    do st <- FS.rename st file target;
    do r <- ProgressBar.inc_and_print pg;
    ret (st, result, fst r)
  else
    do tag_list <- FS.EasyID3 st file;
    let artist_name := strip (nth 0 tags "") in
    let tag_list := <["artist" := [artist_name]]> tag_list in
    let title_name := strip (drop_last4 (nth 1 tags "")) in
    let tag_list := <["title" := [title_name]]> tag_list in
    do st <- FS.save st file tag_list;
    let result := result ++ [file] in
    do r <- ProgressBar.inc_and_print pg;
    ret (st, result, fst r).

(** [try: os.mkdir(os.path.join(source, '_invalid')) except: ...]: any
    failure is passed over. *)
Definition make_invalid_dir (st : FS.t) (source : option string) : FS.t :=
  match source with
  | Some s =>
      match FS.mkdir st (posixpath.join s "_invalid") with
      | inr st' => st'
      | inl _ => st
      end
  | None => st
  end.

(** [id3_correct(files=None)]: the returned list and the world it
    leaves. *)
Definition id3_correct (files : option (list string)) (w : world)
    : result (list string * world) :=
  do r <- request_source files w;
  let '(files, source, w) := r in
  let st := make_invalid_dir (fs w) source in
  let pg := ProgressBar.new (Z.of_nat (length files)) in
  do _ <- ProgressBar.print pg;
  do s <- foldM (id3_body (sd w) source) files (st, [], pg);
  let '(st, result, _) := s in
  ret (result, with_fs w st).


(** ** file_copy and file_move *)

(** [str(EasyID3(file)["artist"][0])] *)
Definition artist_of (st : FS.t) (file : string) : result string :=
  do tag_list <- FS.EasyID3 st file;
  match tag_list !! "artist" with
  | None => raise (KeyError "artist")
  | Some [] => raise IndexError
  | Some (artist :: _) => ret artist
  end.

(** [try: os.mkdir(p) except FileExistsError: ...]: any other error is
    raised. *)
Definition mkdir_exist_ok (st : FS.t) (p : string) : result FS.t :=
  match FS.mkdir st p with
  | inl FileExistsError => ret st
  | r => r
  end.

(** [try: transfer(file, target) except: ...]: a failed transfer leaves
    the tree as it was. *)
Definition attempt (transfer : FS.t -> string -> string -> result FS.t)
    (st : FS.t) (file target : string) : FS.t :=
  match transfer st file target with
  | inr st' => st'
  | inl _ => st
  end.

(** The body of [for file in files] in [file_copy], [file_move] and the
    copying branch of [find_uploads], which differ in [transfer] only. *)
Definition transfer_body (transfer : FS.t -> string -> string -> result FS.t)
    (destination : string) (s : FS.t * ProgressBar.t) (file : string)
    : result (FS.t * ProgressBar.t) :=
  let (st, pg) := s in
  do artist <- artist_of st file;
  do st <- mkdir_exist_ok st (posixpath.join destination artist);
  let basename := posixpath.basename file in
  let st := attempt transfer st file
                    (posixpath.join3 destination artist basename) in
  do r <- ProgressBar.inc_and_print pg;
  ret (st, fst r).

(** From the creation of the progress bar to the end of the loop. *)
Definition transfer_all (transfer : FS.t -> string -> string -> result FS.t)
    (destination : string) (files : list string) (st : FS.t) : result FS.t :=
  let pg := ProgressBar.new (Z.of_nat (length files)) in
  do _ <- ProgressBar.print pg;
  do s <- foldM (transfer_body transfer destination) files (st, pg);
  ret (fst s).

Definition transfer_files (transfer : FS.t -> string -> string -> result FS.t)
    (files : option (list string)) (w : world)
    : result (list string * world) :=
  do r <- request_source files w;
  let '(files, _, w) := r in
  do r <- request_directory "destination" w;
  let (destination, w) := r in
  do st <- transfer_all transfer destination files (fs w);
  ret (files, with_fs w st).

(** [file_copy(files=None)] *)
Definition file_copy (files : option (list string)) (w : world)
    : result (list string * world) :=
  transfer_files FS.copy2 files w.

(** [file_move(files=None)] *)
Definition file_move (files : option (list string)) (w : world)
    : result (list string * world) :=
  transfer_files FS.move files w.

(** ** find_uploads *)

(** [time.gmtime(os.path.getmtime(file)) > ts] *)
Definition modified_after (st : FS.t) (ts : time.struct_time) (file : string)
    : result bool :=
  do m <- FS.getmtime st file;
  ret (time.tuple_gt (time.gmtime m) ts).

(** [[file for file in _files if ...]] *)
Fixpoint filter_uploads (st : FS.t) (ts : time.struct_time)
    (_files : list string) : result (list string) :=
  match _files with
  | [] => ret []
  | file :: rest =>
      do keep <- modified_after st ts file;
      do files <- filter_uploads st ts rest;
      ret (if keep then file :: files else files)
  end.

(** [find_uploads()] *)
Definition find_uploads (w : world) : result (list string * world) :=
  do r <- request_directory "destination" w;
  let (source, w) := r in
  do r <- input w;
  let (_input, w) := r in
  let _input := strip _input in
  do ts <- time.strptime _input;
  let _files := per_tools.find_files (fs w) source "*.mp3" None in
  do files <- filter_uploads (fs w) ts _files;
  do r <- input w;
  let (print_to_ter, w) := r in
  let print_to_ter := negb (print_to_ter =? "y")%string in
  if negb print_to_ter then
    do r <- input w;
    let (destination, w) := r in
    do r <- ask_existing_plain (fs w) destination (stdin w);
    let (destination, lines) := r in
    let w := with_stdin w lines in
    do st <- transfer_all FS.copy2 destination files (fs w);
    ret (files, with_fs w st)
  else ret (files, w).

End actions.

(* ===================================================================== *)
(** * handle_music.py: start-up and the command dispatcher                *)
(* ===================================================================== *)

Module handle_music.
Import Py.

Section Script.

(** [re.compile(p, re.IGNORECASE)], which refuses an ill-formed pattern,
    and the artwork fetcher, which talks to the remote catalogue, are
    taken as given. *)
Variable re_compile : string -> result re.pattern.
Variable get_artwork :
  option (list string) -> world -> result (list string * world).

(** [re.compile(settings[key], re.IGNORECASE)] *)
Definition compile_setting (settings : gmap string json.value) (key : string)
    : result re.pattern :=
  do v <- actions.getitem settings key;
  match v with
  | json.Str p => re_compile p
  | _ => raise TypeError
  end.

(** From the top of the script to the compiled patterns: the settings are
    loaded, or the script exits with status 1. *)
Definition startup (w : world) : result world :=
  match config w with
  | Document settings =>
      do _ <- actions.getitem settings "logging";
      do and_ <- compile_setting settings "and_tags";
      do feat <- compile_setting settings "feature_tags";
      do feat2 <- compile_setting settings "feature2_tags";
      do invalid <- compile_setting settings "invalid_tags";
      ret (with_sd w (shared_data.mk settings and_ feat feat2 invalid None))
  | _ => raise (SystemExit 1)
  end.

(** [settings[key] = v]: the dictionary is the one [sd.settings] names. *)
Definition set_setting (key : string) (v : json.value) (w : world) : world :=
  with_sd w (shared_data.with_settings
               (sd w) (<[key := v]> (shared_data.settings (sd w)))).

(** [with open(sd.CONFIG_PATH, 'w') as fh: json.dump(settings, fh, indent=4)]
    inside [try ... except FileNotFoundError]: without the directory
    nothing is written. *)
Definition dump_settings (w : world) : world :=
  match config w with
  | NoDirectory => w
  | _ => with_config w (Document (shared_data.settings (sd w)))
  end.

(** [os.getcwd()] *)
Definition getcwd (w : world) : string :=
  "/" +:+ join_with "/" (FS.cwd (fs w)).

(** The two assignments to [path] of [set_source] and [set_dest]. *)
Definition absolute (w : world) (arg : string) : string :=
  posixpath.abspath (getcwd w) (posixpath.expanduser (home w) (passwd w) arg).

Definition set_path (key arg : string) (w : world) : world :=
  dump_settings (set_setting key (json.Str (absolute w arg)) w).

Definition set_logging (b : bool) (w : world) : world :=
  dump_settings (set_setting "logging" (json.Bool b) w).

(** The branch over [sys.argv]. Printing a help text changes nothing. *)
Definition dispatch (args : list string) (w : world) : result world :=
  match args with
  | [] => raise IndexError
  | [_] => ret w
  | _ :: a :: rest =>
      if (a =? "help")%string then ret w
      else
        match rest with
        | [] =>
            if existsb (String.eqb a)
                 ["art_help"; "id3_help"; "copy_help"; "move_help";
                  "uploads_help"]
            then ret w
            else if (a =? "art")%string then
              do r <- get_artwork None w; ret (snd r)
            else if (a =? "id3")%string then
              do r <- actions.id3_correct None w; ret (snd r)
            else if (a =? "copy")%string then
              do r <- actions.file_copy None w; ret (snd r)
            else if (a =? "move")%string then
              do r <- actions.file_move None w; ret (snd r)
            else if (a =? "all")%string then
              do r <- actions.id3_correct None w;
              do r <- get_artwork (Some (fst r)) (snd r);
              do r <- actions.file_copy (Some (fst r)) (snd r);
              ret (snd r)
            else if (a =? "uploads")%string then
              do r <- actions.find_uploads w; ret (snd r)
            else if (a =? "set_source")%string || (a =? "set_dest")%string
            then ret w
            else if (a =? "clear")%string then raise (SystemExit 0)
            else if (a =? "log_info")%string then ret w
            else if (a =? "log_off")%string then ret (set_logging false w)
            else if (a =? "log_on")%string then ret (set_logging true w)
            else ret w
        | [b] =>
            if (a =? "set_source")%string then ret (set_path "source" b w)
            else if (a =? "set_dest")%string
            then ret (set_path "destination" b w)
            else ret w
        | _ => ret w
        end
  end.

(** The script, run on [sys.argv]. *)
Definition main (args : list string) (w : world) : result world :=
  do w <- startup w;
  dispatch args w.

End Script.

End handle_music.

(* ===================================================================== *)
(** * Vocabulary of the statements                                        *)
(* ===================================================================== *)

(** The bar [ProgressBar(total)] after [k] calls of [increment]. *)
Definition after_increments (total : Z) (k : nat) : ProgressBar.t :=
  Nat.iter k ProgressBar.increment (ProgressBar.new total).

(** Whether the value [print] formats is a float below 100. *)
Definition below_100 (self : ProgressBar.t) : bool :=
  match ProgressBar.percent_value self with
  | inr v => SFltb v (float_lit 100)
  | inl _ => false
  end.

(** Whether [text] occurs in what [print] writes; None when it raises. *)
Definition printed_contains (text : string) (self : ProgressBar.t)
    : option bool :=
  match ProgressBar.print self with
  | inr out => Some (contains text out)
  | inl _ => None
  end.


(** ** Example trees *)

Module Examples.

(** An MP3 file with an ID3 header that carries the given artist. *)
Definition song (artist : string) (mtime : Z) (content : string) : FS.node :=
  FS.Reg (FS.mk_file (Some {["artist" := [artist]]}) mtime content).

(** A music folder two levels below the root, with a sub-folder, and an
    unrelated folder next to [/home]. *)
Definition library : FS.t :=
  FS.mk (list_to_map
           [(["home"], FS.Dir 0);
            (["home"; "music"], FS.Dir 0);
            (["home"; "music"; "a.mp3"], song "A" 10 "a");
            (["home"; "music"; "rock"], FS.Dir 0);
            (["home"; "music"; "rock"; "b.mp3"], song "B" 20 "b");
            (["tmp"], FS.Dir 0);
            (["tmp"; "x.mp3"], song "X" 30 "x")])
        ["home"] 1000.

End Examples.

Module UploadExamples.

(** Three songs whose modification times are one second before, exactly
    at and one second after 1970-01-02 00:00:00 UTC. *)
Definition tree : FS.t :=
  FS.mk (list_to_map
           [(["music"], FS.Dir 0);
            (["music"; "before.mp3"], Examples.song "A" 86399 "a");
            (["music"; "exact.mp3"], Examples.song "B" 86400 "b");
            (["music"; "later.mp3"], Examples.song "C" 86401 "c");
            (["out"], FS.Dir 0)])
        [] 1000.

Definition shared : shared_data.t :=
  shared_data.mk {["destination" := json.Str "/music"]}
                 (re.literal " & ") (re.literal " feat ")
                 (re.literal "<feat ") (re.literal "official video") None.

(** The answers typed: the default source, the date, and whether to copy
    (and where to). *)
Definition session (lines : list string) : world :=
  mk_world tree NoFile lines shared None ∅.

(** What an action returned, without the world. *)
Definition returned (r : result (list string * world)) : result (list string) :=
  do x <- r; ret (fst x).

End UploadExamples.

Module SettingsExamples.

(** A settings document with every key the start-up reads. *)
Definition document : gmap string json.value :=
  list_to_map
    [("source", json.Str "/old/source");
     ("destination", json.Str "/old/destination");
     ("logging", json.Bool true);
     ("and_tags", json.Str " & ");
     ("feature_tags", json.Str " feat ");
     ("feature2_tags", json.Str "<feat ");
     ("invalid_tags", json.Str "official video");
     ("access_token", json.Null)].

Definition start : world :=
  mk_world Examples.library (Document document) [] UploadExamples.shared
           (Some "/home/user/") ∅.

(** The patterns of [document] have no metacharacters. *)
Definition compile_literal (p : string) : result re.pattern :=
  ret (re.literal p).

Definition no_artwork (files : option (list string)) (w : world)
    : result (list string * world) :=
  raise OSError.

End SettingsExamples.

(** The document [after] has [key] set to [v] and is [before] elsewhere. *)
Definition only_changes (key : string) (v : json.value)
    (before : gmap string json.value) (after : config_file) : Prop :=
  exists d, after = Document d
            /\ d !! key = Some v
            /\ forall k, k <> key -> d !! k = before !! k.

(** ** Names in [id3_correct] *)

(** The basename of [file] once both feature markers are rewritten, and
    the path the file is renamed to before anything else. *)
Definition new_basename (sd : shared_data.t) (file : string) : string :=
  actions.normalise sd (snd (posixpath.split file)).

Definition tmp_file (sd : shared_data.t) (file : string) : string :=
  posixpath.join (fst (posixpath.split file)) (new_basename sd file).


(** The renamed paths of the files that pass the test, in order. *)
Definition accepted (sd : shared_data.t) (files : list string) : list string :=
  map (tmp_file sd)
      (List.filter (fun file => negb (actions.is_invalid sd (new_basename sd file)))
                   files).

Module Id3Examples.

(** A folder of songs named in various ways, all with an ID3 header. *)
Definition tree : FS.t :=
  FS.mk (list_to_map
           [(["music"], FS.Dir 0);
            (["music"; "Artist Name - Song Title.mp3"], Examples.song "" 1 "s1");
            (["music"; "Artist feat Guest - Song.mp3"], Examples.song "" 2 "s2");
            (["music"; "Artist feat Guest.mp3"], Examples.song "" 3 "s3");
            (["music"; "Artist - feat Guest - Song.mp3"], Examples.song "" 4 "s4");
            (["music"; "x - y - z.mp3"], Examples.song "" 5 "s5");
            (["music"; "nodash.mp3"], Examples.song "" 6 "s6");
            (["music"; "_invalid"], FS.Dir 0)])
        ["music"] 1000.

(** The shared data after a source was chosen; the feature marker is
    [" feat "] in both. *)
Definition shared : shared_data.t :=
  shared_data.with_source UploadExamples.shared "/music".


Definition session (sd : shared_data.t) : world :=
  mk_world tree NoFile [] sd None ∅.


End Id3Examples.

(** ** Relations between trees *)

(** [st'] has every directory of [st], and the same working directory. *)
Definition dirs_kept (st st' : FS.t) : Prop :=
  FS.cwd st' = FS.cwd st
  /\ forall q m, FS.lookup st q = Some (FS.Dir m)
                 -> exists m', FS.lookup st' q = Some (FS.Dir m').



Module CopyExamples.

(** Two sources outside the destination and one inside it, in the folder
    of another artist; all three are called [n.mp3]. *)
Definition tree : FS.t :=
  FS.mk (list_to_map
           [(["src1"], FS.Dir 0);
            (["src1"; "n.mp3"], Examples.song "A" 1 "first");
            (["src3"], FS.Dir 0);
            (["src3"; "n.mp3"], Examples.song "B" 3 "third");
            (["dest"], FS.Dir 0);
            (["dest"; "B"], FS.Dir 0);
            (["dest"; "B"; "n.mp3"], Examples.song "A" 2 "second")])
        [] 1000.

Definition files : list string :=
  ["/src1/n.mp3"; "/dest/B/n.mp3"; "/src3/n.mp3"].

(** The destination is typed at each run. *)
Definition session : world :=
  mk_world tree NoFile ["/dest"; "/dest"] UploadExamples.shared None ∅.




End CopyExamples.

Module RerunExamples.

(** Copying the two songs of the library to [/tmp]. *)
Definition files : list string :=
  ["/home/music/a.mp3"; "/home/music/rock/b.mp3"].

Definition session : world :=
  mk_world Examples.library NoFile ["/tmp"] UploadExamples.shared None ∅.

(** The world the first run leaves. *)
Definition after_first_run : world :=
  match actions.file_copy (Some files) session with
  | inr x => snd x
  | inl _ => session
  end.

End RerunExamples.

(** ** Well-formed trees *)

(** A name a directory entry can have. *)
Definition plain (name : string) : Prop :=
  name <> "" /\ name <> "." /\ name <> ".."
  /\ Forall (fun c => posixpath.is_slash c = false) (list_ascii_of_string name).

(** Every path of the tree is made of such names. *)
Definition well_formed (st : FS.t) : Prop :=
  forall q n, FS.nodes st !! q = Some n -> Forall plain q.

(** The length of the longest path of the tree. *)
Definition longest (st : FS.t) : nat := Nat.pred (os.depth_bound st).

(* ===================================================================== *)
(** * Further vocabulary                                                  *)
(* ===================================================================== *)

(** [st'] has every node of [st], of the same kind, and the same working
    directory: nothing was removed, no directory replaced by a file and no
    file by a directory. *)
Definition only_adds (st st' : FS.t) : Prop :=
  FS.cwd st' = FS.cwd st
  /\ (forall q m, FS.lookup st q = Some (FS.Dir m)
                  -> exists m', FS.lookup st' q = Some (FS.Dir m'))
  /\ (forall q f, FS.lookup st q = Some (FS.Reg f)
                  -> exists f', FS.lookup st' q = Some (FS.Reg f')).

Module MoreId3Examples.

(** What [id3_correct] leaves when run over the whole example folder. *)
Definition files : list string :=
  ["/music/Artist Name - Song Title.mp3"; "/music/nodash.mp3";
   "/music/Artist feat Guest - Song.mp3"].

Definition run : result (list string * world) :=
  actions.id3_correct (Some files) (Id3Examples.session Id3Examples.shared).

Definition returned : list string :=
  match run with
  | inr x => fst x
  | inl _ => []
  end.

Definition after : world :=
  match run with
  | inr x => snd x
  | inl _ => Id3Examples.session Id3Examples.shared
  end.

(** A folder with a song that has no ID3 header. *)
Definition bare_tree : FS.t :=
  FS.mk (list_to_map
           [(["music"], FS.Dir 0);
            (["music"; "Artist - Song.mp3"],
             FS.Reg (FS.mk_file None 1 "raw"))])
        ["music"] 1000.

End MoreId3Examples.

Module BareExamples.

Definition session : world :=
  mk_world MoreId3Examples.bare_tree NoFile [] Id3Examples.shared None ∅.

End BareExamples.

Module CopyErrorExamples.

(** A song without artist tag, a song by an artist whose name has a
    slash, and an empty destination. *)
Definition tree : FS.t :=
  FS.mk (list_to_map
           [(["in"], FS.Dir 0);
            (["in"; "untagged.mp3"],
             FS.Reg (FS.mk_file (Some {["title" := ["T"]]}) 1 "u"));
            (["in"; "thunder.mp3"], Examples.song "AC/DC" 2 "t");
            (["out"], FS.Dir 0)])
        [] 1000.

End CopyErrorExamples.

Module MoveExamples.

(** One song to be moved into an empty destination. *)
Definition tree : FS.t :=
  FS.mk (list_to_map
           [(["in"], FS.Dir 0);
            (["in"; "song.mp3"], Examples.song "Band" 7 "s");
            (["out"], FS.Dir 0)])
        [] 1000.

Definition session : world :=
  mk_world tree NoFile ["/out"] UploadExamples.shared None ∅.

End MoveExamples.

(** ** Dates *)

(** The date of a [struct_time] and the second its day begins, UTC. *)
Definition date_of (ts : time.struct_time) : Z * Z * Z :=
  (nth 0 ts 0, nth 1 ts 0, nth 2 ts 0).

Definition midnight (ts : time.struct_time) : Z :=
  86400 * time.days_from_civil (nth 0 ts 0) (nth 1 ts 0) (nth 2 ts 0).

(** [a < b] on dates, as tuples compare. *)
Definition date_ltb (a b : Z * Z * Z) : bool :=
  let '(y1, m1, d1) := a in
  let '(y2, m2, d2) := b in
  time.tuple_gt [y2; m2; d2] [y1; m1; d1].

(** The days the calendar was checked on: from 1967-04-06 to 2082-04-02. *)
Definition first_day : Z := -1000.
Definition last_day : Z := 41000.

(** [f] holds on the [n] days from [lo] on. *)
Fixpoint all_days (f : Z -> bool) (lo : Z) (n : nat) : bool :=
  match n with
  | O => true
  | S n' => f lo && all_days f (lo + 1) n'
  end.

(** The next day has a later date. *)
Definition next_is_later (n : Z) : bool :=
  date_ltb (time.civil_from_days n) (time.civil_from_days (n + 1)).

(** A day of a month that has it is the date of its day number, which is
    among the days checked. *)
Definition date_round_trip (y m d : Z) : bool :=
  implb (d <=? time.days_in_month y m)
        (let n := time.days_from_civil y m d in
         match time.civil_from_days n with
         | (y', m', d') => (y' =? y) && (m' =? m) && (d' =? d)
         end && (first_day <? n) && (n <? last_day)).

Definition year_round_trips (y : Z) : bool :=
  forallb (fun m => forallb (date_round_trip y m) (seqZ 1 31)) (seqZ 1 12).

Module ScriptExamples.

(** The script started on the upload folder with the settings document of
    [SettingsExamples]; the answers: the source, the date, to copy, and
    the destination. *)
Definition start : world :=
  mk_world UploadExamples.tree (Document SettingsExamples.document)
           ["/music"; "02/01/70"; "y"; "/out"] UploadExamples.shared
           (Some "/home/user/") ∅.

End ScriptExamples.
(* ===================================================================== *)
(** * Properties of the progress bar                                      *)
(* ===================================================================== *)

Section ProgressBarFacts.
Import ProgressBar.

Lemma float_of_int_0 : float_of_int 0 = inr (S754_zero false).
Proof. reflexivity. Qed.

(** With a total of zero [print] cannot return: either the conversion of
    the iteration count overflows or the division raises. *)
Lemma print_total_0_raises (self : t) :
  _total self = 0 ->
  print self = inl ZeroDivisionError \/ print self = inl OverflowError.
Proof.
  intros Htotal. unfold print, percent, percent_value.
  rewrite Htotal, float_of_int_0. cbn [bind].
  unfold float_of_int.
  destruct (binary_normalize prec emax (_iteration self) 0 false); cbn; auto.
Qed.

Lemma print_succeeds_total (self : t) :
  succeeds (print self) -> _total self <> 0.
Proof.
  intros [out Hout] Htotal.
  destruct (print_total_0_raises self Htotal) as [H | H];
    rewrite H in Hout; discriminate.
Qed.

Lemma print_fresh_total_0 (prefix suffix : string) (decimals length : Z)
    (fill : string) :
  print (__init__ 0 prefix suffix decimals length fill) = inl ZeroDivisionError.
Proof. reflexivity. Qed.

End ProgressBarFacts.

(** C9. A bar made with [total = 0] raises ZeroDivisionError on its first
    [print], whatever its other arguments; no bar with a total of zero
    prints, so that among the totals a list length can be, [print]
    returns only for [0 < total]; and this is what happens to the actions
    on an empty list of files: [id3_correct] and the loop shared by
    [file_copy], [file_move] and [find_uploads] raise before their first
    iteration. *)
Theorem progress_bar_total_zero :
  (forall prefix suffix decimals length fill,
      ProgressBar.print
        (ProgressBar.__init__ 0 prefix suffix decimals length fill)
      = inl ZeroDivisionError)
  /\ (forall self : ProgressBar.t,
         0 <= ProgressBar._total self ->
         succeeds (ProgressBar.print self) ->
         0 < ProgressBar._total self)
  /\ (forall w : world,
         actions.id3_correct (Some []) w = inl ZeroDivisionError)
  /\ (forall transfer destination st,
         actions.transfer_all transfer destination [] st
         = inl ZeroDivisionError).
Proof.
  split; [exact print_fresh_total_0 |].
  split; [| split; reflexivity].
  intros self Hnonneg Hok.
  pose proof (print_succeeds_total self Hok). lia.
Qed.

Lemma progress_bar_total_zero_witness :
  0 <= ProgressBar._total (ProgressBar.new 4)
  /\ succeeds (ProgressBar.print (ProgressBar.new 4))
  /\ 0 < ProgressBar._total (ProgressBar.new 4).
Proof.
  assert (H0 : 0 <= ProgressBar._total (ProgressBar.new 4)) by (cbn; lia).
  assert (Hok : succeeds (ProgressBar.print (ProgressBar.new 4)))
    by (eexists; vm_compute; reflexivity).
  split; [exact H0 |]. split; [exact Hok |].
  exact (proj1 (proj2 progress_bar_total_zero) (ProgressBar.new 4) H0 Hok).
Defined.

(** C6. For [ProgressBar(4)] the percentage printed after 0, 1, 2, 3 and 4
    increments is 0.0, 25.0, 50.0, 75.0 and 100.0: the value formatted is
    below 100 before the fourth increment, and the text ["100.0%"] occurs
    in what [print] writes after the fourth increment and in none of the
    earlier outputs. *)
Theorem total_4_reaches_100_after_4 :
  map (fun k => ProgressBar.percent (after_increments 4 k))
      [0; 1; 2; 3; 4]%nat
  = [inr "0.0"; inr "25.0"; inr "50.0"; inr "75.0"; inr "100.0"]
  /\ map (fun k => below_100 (after_increments 4 k)) [0; 1; 2; 3; 4]%nat
     = [true; true; true; true; false]
  /\ map (fun k => printed_contains "100.0%" (after_increments 4 k))
         [0; 1; 2; 3; 4]%nat
     = [Some false; Some false; Some false; Some false; Some true].
Proof. repeat split; vm_compute; reflexivity. Qed.

(* ===================================================================== *)
(** * Properties of paths and of the file search                          *)
(* ===================================================================== *)

Section StringFacts.

Lemma append_cons (x : ascii) (a b : string) :
  String x a +:+ b = String x (a +:+ b).
Proof. reflexivity. Qed.

Lemma append_assoc (a b c : string) : (a +:+ b) +:+ c = a +:+ (b +:+ c).
Proof.
  induction a as [| x a IH]; [reflexivity |].
  now rewrite !append_cons, IH.
Qed.

Lemma list_ascii_of_append (a b : string) :
  list_ascii_of_string (a +:+ b)
  = list_ascii_of_string a ++ list_ascii_of_string b.
Proof.
  induction a as [| x a IH]; [reflexivity |].
  rewrite append_cons. cbn. now rewrite IH.
Qed.

Lemma append_nonempty (a b : string) : a <> "" -> a +:+ b <> "".
Proof. destruct a; cbn; [congruence | discriminate]. Qed.

Lemma eqb_empty_false (a : string) : a <> "" -> (a =? "")%string = false.
Proof. intros H. now apply String.eqb_neq. Qed.

Lemma endswith_slash_append (p : string) : endswith "/" (p +:+ "/") = true.
Proof.
  unfold endswith, rev_string.
  now rewrite list_ascii_of_append, rev_app_distr.
Qed.

Lemma startswith_append (q p s : string) :
  p <> "" -> startswith (String.String "/" "") (p +:+ s)
             = startswith (String.String "/" "") p.
Proof.
  intros Hp. destruct p as [| c p]; [congruence |].
  rewrite append_cons. cbn. now destruct ("/" =? c)%char.
Qed.

(** Splitting on the slash sees one more, empty, piece after a trailing
    slash. *)
Lemma split_go_slash_append (cur : list ascii) (s : string) :
  split_go "/" 0 cur (s +:+ "/") = split_go "/" 0 cur s ++ [""].
Proof.
  revert cur. induction s as [| c s IH]; intros cur; [reflexivity |].
  rewrite append_cons. cbn [split_go startswith].
  destruct ("/" =? c)%char; cbn [andb String.length Nat.sub];
    rewrite IH; reflexivity.
Qed.

End StringFacts.

Section TrailingSlash.
Variable st : FS.t.
Variable p : string.
Hypothesis p_nonempty : p <> "".
Hypothesis p_no_slash : endswith "/" p = false.

Lemma join_trailing_slash (b : string) :
  posixpath.join (p +:+ "/") b = posixpath.join p b.
Proof.
  unfold posixpath.join.
  destruct (startswith "/" b); [reflexivity |].
  rewrite endswith_slash_append, p_no_slash, orb_true_r.
  rewrite (eqb_empty_false p p_nonempty). cbn [orb].
  apply append_assoc.
Qed.

Lemma components_trailing_slash :
  FS.components (p +:+ "/") = FS.components p.
Proof.
  unfold FS.components, split_on.
  rewrite split_go_slash_append, List.filter_app. cbn.
  now rewrite app_nil_r.
Qed.

Lemma resolve_trailing_slash :
  FS.resolve st (p +:+ "/")
  = do r <- FS.resolve st p; ret (fst r, true).
Proof.
  unfold FS.resolve.
  rewrite (eqb_empty_false _ (append_nonempty p "/" p_nonempty)).
  rewrite (eqb_empty_false p p_nonempty).
  rewrite components_trailing_slash, endswith_slash_append.
  rewrite (startswith_append "" p "/" p_nonempty).
  destruct (FS.namei st _ _); reflexivity.
Qed.

(** A directory lists the same with and without the slash, and what is
    not a directory is refused the same way. *)
Lemma scandir_trailing_slash :
  FS.scandir st (p +:+ "/") = FS.scandir st p.
Proof.
  unfold FS.scandir, FS.stat. rewrite resolve_trailing_slash.
  destruct (FS.resolve st p) as [e | [q slash]]; [reflexivity |].
  cbn [bind ret fst snd].
  destruct (FS.lookup st q) as [[m | f] |]; cbn [bind ret fst snd];
    try reflexivity.
  destruct slash; reflexivity.
Qed.

Lemma walk_trailing_slash (fuel : nat) (pattern : string) :
  flat_map (fun tuple_0 => glob.glob st (posixpath.join tuple_0 pattern))
           (os.walk_fuel fuel st (p +:+ "/"))
  = flat_map (fun tuple_0 => glob.glob st (posixpath.join tuple_0 pattern))
             (os.walk_fuel fuel st p).
Proof.
  destruct fuel as [| fuel]; [reflexivity |].
  cbn [os.walk_fuel]. rewrite scandir_trailing_slash.
  destruct (FS.scandir st p) as [e | entries]; [reflexivity |].
  cbn [flat_map]. rewrite join_trailing_slash. f_equal. f_equal.
  apply flat_map_ext. intros dirname. now rewrite join_trailing_slash.
Qed.

End TrailingSlash.

(** C4. For a non-empty path [p] that does not end with a slash,
    [find_files] returns the same list for [p + "/"] as for [p], with
    every pattern, in every file tree, without a depth and with any. *)
Theorem find_files_trailing_slash (st : FS.t) (p pattern : string)
    (depth : option Z) :
  p <> "" ->
  endswith "/" p = false ->
  per_tools.find_files st (p +:+ "/") pattern depth
  = per_tools.find_files st p pattern depth.
Proof.
  intros Hne Hslash. destruct depth as [depth |]; cbn [per_tools.find_files].
  - apply flat_map_ext. intros depth_level.
    unfold posixpath.join3. now rewrite join_trailing_slash.
  - unfold os.walk. now apply walk_trailing_slash.
Qed.

Lemma flat_map_ext_in {A B : Type} (f g : A -> list B) (l : list A) :
  (forall a, In a l -> f a = g a) -> flat_map f l = flat_map g l.
Proof.
  induction l as [| a l IH]; intros H; [reflexivity |].
  cbn. rewrite (H a) by now left. f_equal. apply IH.
  intros b Hb. apply H. now right.
Qed.

Section DepthLevels.
Variable st : FS.t.
Variables source pattern : string.

Lemma str_mul_succ (s : string) (n : Z) :
  0 <= n -> str_mul s (n + 1) = s +:+ str_mul s n.
Proof.
  intros Hn. unfold str_mul.
  replace (Z.to_nat (n + 1)) with (S (Z.to_nat n)) by lia. reflexivity.
Qed.

(** From the second level on, the component handed to [os.path.join]
    starts with a slash, and [source] is dropped from the pattern. *)
Lemma join3_deeper_level (depth_level : Z) :
  1 <= depth_level ->
  posixpath.join3 source (str_mul "/*" depth_level) pattern
  = posixpath.join (str_mul "/*" depth_level) pattern.
Proof.
  intros Hlevel. unfold posixpath.join3. f_equal.
  replace depth_level with ((depth_level - 1) + 1) by lia.
  rewrite str_mul_succ by lia. reflexivity.
Qed.

(** What the bounded search looks at: [source] itself, then patterns
    in which [source] does not occur. *)
Lemma find_files_depth_unfold (depth : Z) :
  1 <= depth ->
  per_tools.find_files st source pattern (Some depth)
  = glob.glob st (posixpath.join3 source "" pattern)
    ++ flat_map (fun depth_level =>
                   glob.glob st (posixpath.join (str_mul "/*" depth_level)
                                                pattern))
                (seqZ 1 (depth - 1)).
Proof.
  intros Hdepth. cbn [per_tools.find_files]. unfold per_tools.range0.
  replace depth with (1 + (depth - 1)) at 1 by lia.
  rewrite seqZ_app by lia. rewrite flat_map_app. f_equal.
  - change (seqZ 0 1) with [0]. cbn [flat_map]. now rewrite app_nil_r.
  - apply flat_map_ext_in. intros depth_level Hin.
    apply list_elem_of_In, elem_of_seqZ in Hin.
    rewrite join3_deeper_level by lia. reflexivity.
Qed.

End DepthLevels.

(** C3. In the tree [Examples.library] the search
    [find_files("/home/music", "*.mp3", 2)] returns [/home/music/a.mp3]
    and [/tmp/x.mp3]: the file [/home/music/rock/b.mp3], which matches and
    lies one folder below the source, is missing, and a file outside the
    source is returned; the search without a depth finds the two files of
    the source. *)
Theorem find_files_depth_leaves_source :
  per_tools.find_files Examples.library "/home/music" "*.mp3" (Some 2)
  = ["/home/music/a.mp3"; "/tmp/x.mp3"]
  /\ per_tools.find_files Examples.library "/home/music" "*.mp3" None
     = ["/home/music/a.mp3"; "/home/music/rock/b.mp3"]
  /\ FS.exists_ Examples.library "/home/music/rock/b.mp3" = true.
Proof. repeat split; vm_compute; reflexivity. Qed.

Lemma find_files_trailing_slash_witness :
  per_tools.find_files Examples.library "/home/music/" "*.mp3" None
  = per_tools.find_files Examples.library "/home/music" "*.mp3" None
  /\ per_tools.find_files Examples.library "/home/music/" "*.mp3" (Some 2)
     = per_tools.find_files Examples.library "/home/music" "*.mp3" (Some 2).
Proof.
  assert (Hne : "/home/music" <> "") by discriminate.
  assert (Hslash : endswith "/" "/home/music" = false) by reflexivity.
  split.
  - exact (find_files_trailing_slash Examples.library "/home/music" "*.mp3"
             None Hne Hslash).
  - exact (find_files_trailing_slash Examples.library "/home/music" "*.mp3"
             (Some 2) Hne Hslash).
Defined.

(* ===================================================================== *)
(** * The upload finder                                                   *)
(* ===================================================================== *)

(** C7. With the date 02/01/70 entered, [find_uploads] returns the file
    modified one second after 1970-01-02 00:00:00 UTC and also the file
    modified exactly then ([tm_isdst] is 0 for [gmtime] and -1 for
    [strptime], which decides the comparison of otherwise equal tuples),
    in the listing branch as in the copying branch; and with a date no
    file is later than, the listing branch returns the empty list while
    the copying branch raises ZeroDivisionError. *)
Theorem find_uploads_includes_the_date_itself :
  FS.getmtime UploadExamples.tree "/music/exact.mp3"
  = inr (time.days_from_civil 1970 1 2 * 86400)
  /\ UploadExamples.returned
       (actions.find_uploads (UploadExamples.session [""; "02/01/70"; "n"]))
     = inr ["/music/exact.mp3"; "/music/later.mp3"]
  /\ UploadExamples.returned
       (actions.find_uploads
          (UploadExamples.session [""; "02/01/70"; "y"; "/out"]))
     = inr ["/music/exact.mp3"; "/music/later.mp3"]
  /\ UploadExamples.returned
       (actions.find_uploads (UploadExamples.session [""; "03/01/70"; "n"]))
     = inr []
  /\ UploadExamples.returned
       (actions.find_uploads
          (UploadExamples.session [""; "03/01/70"; "y"; "/out"]))
     = inl ZeroDivisionError.
Proof. repeat split; vm_compute; reflexivity. Qed.

(* ===================================================================== *)
(** * The settings commands                                               *)
(* ===================================================================== *)

Section SettingsCommands.
Import handle_music.
Variable re_compile : string -> result re.pattern.
Variable get_artwork :
  option (list string) -> world -> result (list string * world).

Lemma startup_inv (w w0 : world) :
  startup re_compile w = inr w0 ->
  exists d, config w = Document d
            /\ config w0 = Document d
            /\ shared_data.settings (sd w0) = d
            /\ fs w0 = fs w /\ home w0 = home w /\ passwd w0 = passwd w.
Proof.
  unfold startup. destruct (config w) as [| | d] eqn:Hconfig; try discriminate.
  intros H. exists d.
  destruct (actions.getitem d "logging"); try discriminate.
  destruct (compile_setting re_compile d "and_tags"); try discriminate.
  destruct (compile_setting re_compile d "feature_tags"); try discriminate.
  destruct (compile_setting re_compile d "feature2_tags"); try discriminate.
  destruct (compile_setting re_compile d "invalid_tags"); try discriminate.
  cbn in H. injection H as <-. cbn. repeat split; auto.
Qed.

(** Writing one key and dumping the dictionary. *)
Lemma dump_set_setting (key : string) (v : json.value) (w : world)
    (d : gmap string json.value) :
  config w = Document d ->
  shared_data.settings (sd w) = d ->
  only_changes key v d (config (dump_settings (set_setting key v w))).
Proof.
  intros Hconfig Hsettings. unfold dump_settings, set_setting.
  cbn [config with_sd]. rewrite Hconfig. cbn.
  exists (<[key := v]> d). rewrite Hsettings. split; [reflexivity |].
  split; [apply lookup_insert_eq |].
  intros k Hk. now apply lookup_insert_ne.
Qed.

Lemma absolute_startup (w w0 : world) (arg : string) :
  fs w0 = fs w -> home w0 = home w -> passwd w0 = passwd w ->
  absolute w0 arg = absolute w arg.
Proof. unfold absolute, getcwd. now intros -> -> ->. Qed.

End SettingsCommands.

(** C8. When the script starts (the settings document [d] is there, has
    the keys the start-up reads and its patterns compile), the command
    [set_source <path>] leaves a document whose key [source] is the
    absolute, user-expanded path and whose other keys are those of [d];
    [set_dest <path>] does the same to [destination], and [log_off] and
    [log_on] to [logging] with False and True. *)
Theorem settings_commands_change_one_key
    (re_compile : string -> result re.pattern)
    (get_artwork :
       option (list string) -> world -> result (list string * world))
    (w w0 : world) (d : gmap string json.value) (prog arg : string) :
  config w = Document d ->
  handle_music.startup re_compile w = inr w0 ->
  (exists w',
      handle_music.main re_compile get_artwork [prog; "set_source"; arg] w
      = inr w'
      /\ only_changes "source" (json.Str (handle_music.absolute w arg)) d
                      (config w'))
  /\ (exists w',
         handle_music.main re_compile get_artwork [prog; "set_dest"; arg] w
         = inr w'
         /\ only_changes "destination"
                         (json.Str (handle_music.absolute w arg)) d
                         (config w'))
  /\ (exists w',
         handle_music.main re_compile get_artwork [prog; "log_off"] w
         = inr w'
         /\ only_changes "logging" (json.Bool false) d (config w'))
  /\ (exists w',
         handle_music.main re_compile get_artwork [prog; "log_on"] w
         = inr w'
         /\ only_changes "logging" (json.Bool true) d (config w')).
Proof.
  intros Hconfig Hstart.
  destruct (startup_inv re_compile w w0 Hstart)
    as (d' & Hd & Hconfig0 & Hsettings & Hfs & Hhome & Hpasswd).
  rewrite Hconfig in Hd. injection Hd as <-.
  pose proof (absolute_startup w w0 arg Hfs Hhome Hpasswd) as Habs.
  unfold handle_music.main. rewrite Hstart. cbn [bind].
  repeat split; eexists; (split; [reflexivity |]);
    cbn [handle_music.set_path handle_music.set_logging];
    rewrite <- ?Habs; now apply dump_set_setting.
Qed.

Lemma settings_commands_change_one_key_witness :
  exists w',
    handle_music.main SettingsExamples.compile_literal
                      SettingsExamples.no_artwork
                      ["handle_music.py"; "set_source"; "~/Music/../new"]
                      SettingsExamples.start
    = inr w'
    /\ only_changes "source" (json.Str "/home/user/new")
                    SettingsExamples.document (config w').
Proof.
  assert (Hconfig : config SettingsExamples.start
                    = Document SettingsExamples.document) by reflexivity.
  assert (Hstart : exists w0,
             handle_music.startup SettingsExamples.compile_literal
                                  SettingsExamples.start = inr w0)
    by (eexists; vm_compute; reflexivity).
  destruct Hstart as [w0 Hstart].
  exact (proj1 (settings_commands_change_one_key
                  SettingsExamples.compile_literal SettingsExamples.no_artwork
                  SettingsExamples.start w0 SettingsExamples.document
                  "handle_music.py" "~/Music/../new" Hconfig Hstart)).
Defined.

(* ===================================================================== *)
(** * Properties of the file tree                                         *)
(* ===================================================================== *)

Section TreeFacts.
Import FS.

Lemma dirs_kept_refl (st : t) : dirs_kept st st.
Proof. split; [reflexivity | eauto]. Qed.

(** A path that resolves keeps resolving, to the same place, when no
    directory is lost. *)
Lemma namei_kept (st st' : t) (cs : list string) (cur p : path) :
  dirs_kept st st' ->
  namei st cur cs = inr p -> namei st' cur cs = inr p.
Proof.
  intros [_ Hdirs]. revert cur.
  induction cs as [| c cs IH]; intros cur H; [exact H |].
  cbn [namei] in *.
  destruct (lookup st cur) as [[m | f] |] eqn:Hcur; try discriminate.
  destruct (Hdirs cur m Hcur) as [m' ->].
  destruct (c =? ".")%string; [now apply IH |].
  destruct (c =? "..")%string; now apply IH.
Qed.

Lemma resolve_kept (st st' : t) (s : string) (r : path * bool) :
  dirs_kept st st' ->
  resolve st s = inr r -> resolve st' s = inr r.
Proof.
  intros Hkept. unfold resolve.
  destruct (s =? "")%string; [discriminate |].
  destruct Hkept as [Hcwd Hdirs]. rewrite Hcwd.
  destruct (namei st _ _) as [e | p] eqn:Hnamei; [discriminate |].
  intros H. rewrite (namei_kept st st' _ _ p (conj Hcwd Hdirs) Hnamei).
  exact H.
Qed.

Lemma lookup_nonroot (st : t) (q : path) (f : file) :
  lookup st q = Some (Reg f) -> q <> [] /\ nodes st !! q = Some (Reg f).
Proof. destruct q; cbn; [discriminate | intros H; split; [discriminate | exact H]]. Qed.

Lemma lookup_with_nodes (st : t) (m : gmap path node) (q : path) :
  q <> [] -> lookup (with_nodes st m) q = m !! q.
Proof. destruct q; [congruence | reflexivity]. Qed.

(** Putting a regular file where no directory is, and taking a regular
    file away, lose no directory. *)
Lemma dirs_kept_insert_reg (st : t) (pd : path) (f : file) (m : gmap path node) :
  (forall q d, lookup st q = Some (Dir d) -> q <> [] -> m !! q = Some (Dir d)) ->
  dirs_kept st (with_nodes st (<[pd := Reg f]> m)) \/ exists d, lookup st pd = Some (Dir d).
Proof.
  intros Hm.
  destruct (lookup st pd) as [[d | g] |] eqn:Hpd; [right; eauto | left | left];
    (split; [reflexivity |]; intros q d Hq;
     destruct q as [| x q]; [cbn; eauto |];
     exists d; rewrite lookup_with_nodes by discriminate;
     rewrite lookup_insert_ne; [apply Hm; [exact Hq | discriminate] |];
     intros ->; rewrite Hpd in Hq; discriminate).
Qed.

(** What [stat] says of a path that resolves to [p] without a trailing
    slash. *)
Lemma stat_resolved (st : t) (s : string) (p : path) (f : file) :
  resolve st s = inr (p, false) ->
  lookup st p = Some (Reg f) ->
  stat st s = inr (Reg f).
Proof. intros Hres Hp. unfold stat. rewrite Hres. cbn. now rewrite Hp. Qed.

Lemma stat_reg_inv (st : t) (s : string) (f : file) :
  stat st s = inr (Reg f) ->
  exists p, resolve st s = inr (p, false) /\ lookup st p = Some (Reg f).
Proof.
  unfold stat. destruct (resolve st s) as [e | [p slash]]; [discriminate |].
  cbn. destruct (lookup st p) as [[d | g] |] eqn:Hp; try discriminate.
  destruct slash; [discriminate |]. intros H. injection H as ->. eauto.
Qed.

(** ** Renaming a regular file *)

Lemma rename_reg (st st' : t) (src dst : string) (f : file) :
  stat st src = inr (Reg f) ->
  rename st src dst = inr st' ->
  stat st' dst = inr (Reg f) /\ dirs_kept st st'.
Proof.
  intros Hstat. unfold rename. rewrite Hstat. cbn [bind].
  destruct (stat_reg_inv st src f Hstat) as (ps & Hps & Hlook).
  rewrite Hps. cbn [bind fst snd].
  destruct (resolve st dst) as [e | [pd slash]] eqn:Hpd; [discriminate |].
  cbn [bind fst snd].
  destruct (lookup st pd) as [[d | g] |] eqn:Hlookd; [discriminate | |];
    (destruct slash; [discriminate |]);
    (case_bool_decide as Hsame;
     [ intros H; injection H as <-; subst pd; split;
       [now apply (stat_resolved st dst ps f) | apply dirs_kept_refl]
     | intros H; injection H as <- ]).
  all: assert (Hpd_nonroot : pd <> [])
    by (intros ->; cbn in Hlookd; discriminate).
  all: destruct (dirs_kept_insert_reg st pd f (delete ps (nodes st)))
    as [Hkept | [d Hd]];
    [ intros q d Hq Hne; rewrite lookup_delete_ne;
      [destruct q; [congruence | exact Hq] |];
      intros <-; rewrite Hlook in Hq; discriminate
    | | rewrite Hlookd in Hd; discriminate ].
  all: split; [| exact Hkept].
  all: apply (stat_resolved _ dst pd f);
    [ now apply (resolve_kept st)
    | rewrite lookup_with_nodes by exact Hpd_nonroot; apply lookup_insert_eq ].
Qed.

(** ** Reading and writing tags *)



End TreeFacts.

(* ===================================================================== *)
(** * The tag corrector                                                   *)
(* ===================================================================== *)

Section TagCorrector.
Import actions.
Variable sd : shared_data.t.



Lemma accepted_single (file : string) :
  accepted sd [file]
  = if is_invalid sd (new_basename sd file) then [] else [tmp_file sd file].
Proof.
  unfold accepted. cbn [List.filter].
  now destruct (is_invalid sd (new_basename sd file)).
Qed.

(** What an iteration that returns has appended. *)
Lemma id3_body_result (source : option string) (s s' : id3_state)
    (file : string) :
  id3_body sd source s file = inr s' ->
  snd (fst s') = snd (fst s) ++ accepted sd [file].
Proof.
  destruct s as [[st result] pg]. destruct s' as [[st' result'] pg'].
  rewrite accepted_single. unfold tmp_file, new_basename, id3_body.
  destruct (posixpath.split file) as [head basename]. cbn [fst snd].
  destruct (FS.rename st file _) as [e | st1]; [discriminate |]. cbn [bind].
  destruct (is_invalid sd (normalise sd basename)).
  - destruct (join_source _ _ _); [discriminate |]. cbn [bind].
    destruct (FS.rename st1 _ _); [discriminate |]. cbn [bind].
    destruct (ProgressBar.inc_and_print pg); [discriminate |]. cbn [bind ret].
    intros H. injection H as _ <- _. now rewrite app_nil_r.
  - destruct (FS.EasyID3 st1 _); [discriminate |]. cbn [bind].
    destruct (FS.save st1 _ _); [discriminate |]. cbn [bind].
    destruct (ProgressBar.inc_and_print pg); [discriminate |]. cbn [bind ret].
    intros H. injection H as _ <- _. reflexivity.
Qed.

Lemma accepted_app (l1 l2 : list string) :
  accepted sd (l1 ++ l2) = accepted sd l1 ++ accepted sd l2.
Proof. unfold accepted. now rewrite List.filter_app, map_app. Qed.

(** The loop appends the renamed paths of the files that pass, in order,
    and nothing else. *)
Lemma id3_loop_result (source : option string) (files : list string)
    (s s' : id3_state) :
  foldM (id3_body sd source) files s = inr s' ->
  snd (fst s') = snd (fst s) ++ accepted sd files.
Proof.
  revert s. induction files as [| file files IH]; intros s; cbn [foldM].
  - intros H. injection H as <-. unfold accepted. cbn. now rewrite app_nil_r.
  - destruct (id3_body sd source s file) as [e | s1] eqn:Hbody; [discriminate |].
    cbn [bind]. intros Hrest.
    rewrite (IH s1 Hrest), (id3_body_result source s s1 file Hbody).
    change (file :: files) with ([file] ++ files).
    now rewrite accepted_app, app_assoc.
Qed.

End TagCorrector.

(** The list [id3_correct] returns, for the files it was given or found. *)
Lemma id3_correct_returns (files : option (list string)) (w w' : world)
    (result : list string) :
  actions.id3_correct files w = inr (result, w') ->
  exists found source w1,
    actions.request_source files w = inr (found, source, w1)
    /\ result = accepted (sd w1) found.
Proof.
  unfold actions.id3_correct.
  destruct (actions.request_source files w) as [e | [[found source] w1]];
    [discriminate |].
  cbn [bind]. destruct (ProgressBar.print _); [discriminate |]. cbn [bind].
  destruct (foldM _ _ _) as [e | [[st result'] pg]] eqn:Hloop; [discriminate |].
  cbn [bind ret]. intros H. injection H as <- _.
  exists found, source, w1. split; [reflexivity |].
  exact (id3_loop_result (sd w1) source found _ _ Hloop).
Qed.

Lemma in_accepted (shared : shared_data.t) (files : list string) (x : string) :
  In x (accepted shared files)
  <-> exists file, In file files
                   /\ actions.is_invalid shared (new_basename shared file) = false
                   /\ x = tmp_file shared file.
Proof.
  unfold accepted. rewrite in_map_iff. split.
  - intros (file & <- & Hin). apply List.filter_In in Hin as [Hin Hvalid].
    exists file. apply negb_true_iff in Hvalid. auto.
  - intros (file & Hin & Hvalid & ->). exists file. split; [reflexivity |].
    apply List.filter_In. split; [exact Hin |]. now rewrite Hvalid.
Qed.











(* ===================================================================== *)
(** * The file relocator                                                  *)
(* ===================================================================== *)

Section PathComponents.


Lemma startswith_slash_list (l : list ascii) :
  Forall (fun c => posixpath.is_slash c = false) l ->
  startswith "/" (string_of_list_ascii l) = false.
Proof.
  intros [| c l' Hc _]; [reflexivity |].
  cbn [string_of_list_ascii startswith].
  unfold posixpath.is_slash in Hc. now rewrite Ascii.eqb_sym, Hc.
Qed.


(** Splitting on the slash distributes over a slash in the middle. *)
Lemma split_go_slash_middle (cur : list ascii) (x y : string) :
  split_go "/" 0 cur (x +:+ String "/" y)
  = split_go "/" 0 cur x ++ split_go "/" 0 [] y.
Proof.
  revert cur. induction x as [| c x IH]; intros cur.
  - cbn. reflexivity.
  - rewrite append_cons. cbn [split_go startswith].
    destruct ("/" =? c)%char; cbn [andb String.length Nat.sub];
      rewrite IH; reflexivity.
Qed.

Lemma components_slash_middle (x y : string) :
  FS.components (x +:+ String "/" y) = FS.components x ++ FS.components y.
Proof.
  unfold FS.components, split_on.
  now rewrite split_go_slash_middle, List.filter_app.
Qed.

(** A string that ends with a slash is some string followed by it. *)
Lemma endswith_slash_inv (x : string) :
  endswith "/" x = true -> exists x', x = x' +:+ "/".
Proof.
  unfold endswith, rev_string. intros H.
  change (string_of_list_ascii (rev (list_ascii_of_string "/")))
    with "/" in H.
  destruct (rev (list_ascii_of_string x)) as [| c l] eqn:Hrev;
    cbn [string_of_list_ascii rev app startswith] in H; [discriminate |].
  destruct ("/" =? c)%char eqn:Hc; [| discriminate].
  apply Ascii.eqb_eq in Hc. subst c.
  exists (string_of_list_ascii (rev l)).
  rewrite <- (string_of_list_ascii_of_string x).
  rewrite <- (rev_involutive (list_ascii_of_string x)), Hrev. cbn [rev].
  clear. induction (rev l) as [| c l' IH]; [reflexivity |].
  cbn [app string_of_list_ascii]. rewrite append_cons. now f_equal.
Qed.

Lemma components_nil_r (x : string) :
  FS.components (x +:+ "/") = FS.components x.
Proof.
  rewrite components_slash_middle. cbn. apply app_nil_r.
Qed.

(** The components of [os.path.join(x, b)] for a relative [b]. *)
Lemma components_join (x b : string) :
  startswith "/" b = false ->
  FS.components (posixpath.join x b) = FS.components x ++ FS.components b.
Proof.
  intros Hb. unfold posixpath.join. rewrite Hb.
  destruct (x =? "")%string eqn:Hx.
  - apply String.eqb_eq in Hx. now subst x.
  - cbn [orb]. destruct (endswith "/" x) eqn:Hslash.
    + destruct (endswith_slash_inv x Hslash) as [x' ->].
      rewrite append_assoc. change ("/" +:+ b) with (String "/" b).
      now rewrite components_slash_middle, components_nil_r.
    + change ("/" +:+ b) with (String "/" b).
      apply components_slash_middle.
Qed.

Lemma startswith_join (x b : string) :
  x <> "" -> startswith "/" b = false ->
  startswith "/" (posixpath.join x b) = startswith "/" x.
Proof.
  intros Hx Hb. unfold posixpath.join. rewrite Hb.
  destruct ((x =? "")%string || endswith "/" x);
    now apply (startswith_append "").
Qed.

Lemma join_nonempty (x b : string) : x <> "" -> posixpath.join x b <> "".
Proof.
  intros Hx. unfold posixpath.join.
  destruct (startswith "/" b) eqn:Hb; [now destruct b |].
  destruct ((x =? "")%string || endswith "/" x); now apply append_nonempty.
Qed.

End PathComponents.

Section Rerun.
Import FS.
Variable st : t.






End Rerun.

Section Loop.
Import actions.





End Loop.




(* ===================================================================== *)
(** * The fuel of [os.walk] suffices                                      *)
(* ===================================================================== *)

Section WalkFuel.
Import FS.

Lemma split_go_no_slash (cur : list ascii) (d : string) :
  Forall (fun c => posixpath.is_slash c = false) (list_ascii_of_string d) ->
  split_go "/" 0 cur d
  = [string_of_list_ascii (rev cur ++ list_ascii_of_string d)].
Proof.
  revert cur. induction d as [| c d IH]; intros cur Hd.
  - cbn. now rewrite app_nil_r.
  - cbn [list_ascii_of_string] in Hd. inversion Hd as [| ? ? Hc Hd']; subst.
    cbn [split_go startswith]. unfold posixpath.is_slash in Hc.
    rewrite Ascii.eqb_sym, Hc. cbn [andb]. rewrite (IH _ Hd').
    cbn [rev list_ascii_of_string]. now rewrite <- app_assoc.
Qed.

Lemma components_plain (d : string) : plain d -> components d = [d].
Proof.
  intros (Hne & _ & _ & Hslash). unfold components, split_on.
  rewrite (split_go_no_slash [] d Hslash). cbn [rev app List.filter].
  rewrite string_of_list_ascii_of_string.
  now rewrite (eqb_empty_false d Hne).
Qed.

Lemma startswith_plain (d : string) : plain d -> startswith "/" d = false.
Proof.
  intros (_ & _ & _ & Hslash).
  rewrite <- (string_of_list_ascii_of_string d).
  now apply startswith_slash_list.
Qed.

Variable st : t.

Lemma namei_app (cs cs' : list string) (cur : path) :
  namei st cur (cs ++ cs') = (do p <- namei st cur cs; namei st p cs').
Proof.
  revert cur. induction cs as [| c cs IH]; intros cur; [reflexivity |].
  cbn [app namei bind].
  destruct (lookup st cur) as [[m | f] |]; try reflexivity.
  destruct (c =? ".")%string; [apply IH |].
  destruct (c =? "..")%string; apply IH.
Qed.

Lemma resolve_nonempty (s : string) (r : path * bool) :
  resolve st s = inr r -> s <> "".
Proof. intros H ->. discriminate. Qed.

(** An entry of a directory is reached by joining its name. *)
Lemma resolve_join_child (top d : string) (p : path) (slash : bool) (m : Z) :
  plain d ->
  resolve st top = inr (p, slash) ->
  lookup st p = Some (Dir m) ->
  exists slash', resolve st (posixpath.join top d) = inr (p ++ [d], slash').
Proof.
  intros Hd Hres Hp.
  pose proof (resolve_nonempty top _ Hres) as Htop.
  pose proof (startswith_plain d Hd) as Hrel.
  unfold resolve in *.
  rewrite (eqb_empty_false top Htop) in Hres.
  rewrite (eqb_empty_false _ (join_nonempty top d Htop)).
  rewrite (startswith_join top d Htop Hrel), (components_join top d Hrel).
  rewrite (components_plain d Hd), namei_app.
  destruct (namei st _ (components top)) as [e | p0]; [discriminate |].
  cbn [bind ret] in *. injection Hres as -> _.
  cbn [namei]. rewrite Hp.
  destruct Hd as (_ & Hdot & Hdotdot & _).
  apply String.eqb_neq in Hdot, Hdotdot. rewrite Hdot, Hdotdot.
  eauto.
Qed.

Lemma children_lookup (p : path) (d : string) (n : node) :
  In (d, n) (children st p) -> nodes st !! (p ++ [d]) = Some n.
Proof.
  unfold children. intros Hin.
  apply list_elem_of_In, list_elem_of_omap in Hin as ([q n'] & Hq & Hchild).
  apply elem_of_map_to_list in Hq.
  unfold child_of in Hchild. cbn [fst snd] in Hchild.
  destruct (last q) as [name |]; [| discriminate].
  case_bool_decide as Heq; [| discriminate].
  injection Hchild as -> ->. now rewrite <- Heq.
Qed.

Lemma length_le_longest (q : path) (n : node) :
  nodes st !! q = Some n -> (length q <= longest st)%nat.
Proof.
  intros Hq. apply elem_of_map_to_list, list_elem_of_In in Hq.
  unfold longest, os.depth_bound. cbn [Nat.pred].
  induction (map_to_list (nodes st)) as [| e l IH]; [destruct Hq |].
  cbn [foldr]. destruct Hq as [-> | Hq]; [cbn; lia |].
  specialize (IH Hq). lia.
Qed.

Hypothesis tree_well_formed : well_formed st.

(** Below fuel [n] no directory is left when [top] is deep enough. *)
Lemma walk_fuel_stable (n m : nat) (top : string) (p : path) (slash : bool) :
  resolve st top = inr (p, slash) ->
  (longest st < n + length p)%nat ->
  (n <= m)%nat ->
  os.walk_fuel m st top = os.walk_fuel n st top.
Proof.
  revert m top p slash.
  induction n as [| n IH]; intros m top p slash Hres Hdeep Hle.
  - assert (Hnone : scandir st top = inl FileNotFoundError).
    { unfold scandir, stat. rewrite Hres. cbn [bind fst].
      destruct p as [| x p]; [cbn in Hdeep; lia |].
      destruct (lookup st (x :: p)) as [nd |] eqn:Hx; [| reflexivity].
      pose proof (length_le_longest (x :: p) nd Hx). cbn in *. lia. }
    destruct m; [reflexivity |]. cbn [os.walk_fuel]. now rewrite Hnone.
  - destruct m as [| m]; [lia |]. cbn [os.walk_fuel].
    destruct (scandir st top) as [e | entries] eqn:Hscan; [reflexivity |].
    f_equal. apply flat_map_ext_in. intros d Hd.
    apply in_map_iff in Hd as ([d' nd] & <- & Hin).
    apply List.filter_In in Hin as [Hin Hdir]. cbn [fst snd] in *.
    unfold scandir, stat in Hscan. rewrite Hres in Hscan. cbn [bind fst snd] in Hscan.
    destruct (lookup st p) as [[mt | f] |] eqn:Hp; try discriminate.
    + cbn [bind ret] in Hscan. injection Hscan as <-.
      pose proof (children_lookup p d' nd Hin) as Hchild.
      assert (Hplain : plain d').
      { pose proof (tree_well_formed _ _ Hchild) as Hall.
        apply Forall_app in Hall as [_ Hlast]. now inversion Hlast. }
      destruct (resolve_join_child top d' p slash mt Hplain Hres Hp)
        as [slash' Hres'].
      apply (IH m _ (p ++ [d']) slash' Hres'); [| lia].
      rewrite length_app. change (length [d']) with 1%nat. lia.
    + destruct slash; discriminate.
Qed.

(** [os.walk] would yield the same with any more fuel. *)
Lemma walk_fuel_enough (extra : nat) (top : string) :
  os.walk_fuel (os.depth_bound st + extra) st top = os.walk st top.
Proof.
  unfold os.walk.
  destruct (resolve st top) as [e | [p slash]] eqn:Hres.
  - assert (Hscan : scandir st top = inl e)
      by (unfold scandir, stat; now rewrite Hres).
    unfold os.depth_bound. cbn [Nat.add os.walk_fuel]. now rewrite Hscan.
  - apply (walk_fuel_stable _ _ top p slash Hres); [| lia].
    unfold longest. unfold os.depth_bound. cbn [Nat.pred]. lia.
Qed.

End WalkFuel.

(* ===================================================================== *)
(** * The fuel of [glob] suffices                                         *)
(* ===================================================================== *)

Section GlobFuel.

Lemma length_string_of_list (l : list ascii) :
  String.length (string_of_list_ascii l) = length l.
Proof. induction l as [| c l IH]; cbn; [reflexivity | now rewrite IH]. Qed.

Lemma length_list_of_string (s : string) :
  length (list_ascii_of_string s) = String.length s.
Proof. induction s as [| c s IH]; cbn; [reflexivity | now rewrite IH]. Qed.

Lemma cut_at_slash_app (r : list ascii) :
  r = fst (posixpath.cut_at_slash r) ++ snd (posixpath.cut_at_slash r).
Proof.
  induction r as [| c r IH]; [reflexivity |]. cbn.
  destruct (posixpath.is_slash c); [reflexivity |].
  destruct (posixpath.cut_at_slash r) as [tl hd]. cbn in *. now f_equal.
Qed.

Lemma drop_slashes_suffix (l : list ascii) :
  exists l0, l = l0 ++ posixpath.drop_slashes l.
Proof.
  induction l as [| c l [l0 IH]]; [now exists [] |]. cbn.
  destruct (posixpath.is_slash c); [| now exists []].
  exists (c :: l0). cbn. now f_equal.
Qed.

(** The directory part of a path is the path itself or shorter. *)
Lemma split_head_shorter (p : string) :
  fst (posixpath.split p) = p
  \/ (String.length (fst (posixpath.split p)) < String.length p)%nat.
Proof.
  unfold posixpath.split.
  pose proof (cut_at_slash_app (rev (list_ascii_of_string p))) as Hcut.
  destruct (posixpath.cut_at_slash (rev (list_ascii_of_string p)))
    as [tl hd]. cbn [fst snd] in *.
  assert (Hlen : length (list_ascii_of_string p) = (length tl + length hd)%nat)
    by (rewrite <- length_rev, Hcut, length_app; reflexivity).
  rewrite length_list_of_string in Hlen.
  destruct (drop_slashes_suffix hd) as [l0 Hl0].
  destruct tl as [| c tl].
  - destruct (posixpath.drop_slashes hd) as [| c' stripped] eqn:Hdrop.
    + left. cbn [app] in Hcut. rewrite <- Hcut, rev_involutive.
      apply string_of_list_ascii_of_string.
    + destruct l0 as [| c0 l0].
      * left. cbn [app] in Hcut, Hl0. rewrite <- Hl0, <- Hcut, rev_involutive.
        apply string_of_list_ascii_of_string.
      * right. rewrite length_string_of_list, length_rev, Hlen, Hl0.
        rewrite length_app. cbn. lia.
  - right. destruct (posixpath.drop_slashes hd) as [| c' stripped] eqn:Hdrop;
      rewrite length_string_of_list, length_rev, Hlen.
    + cbn. lia.
    + rewrite Hl0, length_app. cbn. lia.
Qed.

Variable st : FS.t.

(** [glob] would return the same with any more fuel. *)
Lemma iglob_fuel_stable (n m : nat) (pathname : string) (dironly : bool) :
  (String.length pathname < n)%nat ->
  (n <= m)%nat ->
  glob._iglob m st pathname dironly = glob._iglob n st pathname dironly.
Proof.
  revert m pathname dironly.
  induction n as [| n IH]; intros m pathname dironly Hlen Hle; [lia |].
  destruct m as [| m]; [lia |]. cbn [glob._iglob].
  pose proof (split_head_shorter pathname) as Hhead.
  destruct (posixpath.split pathname) as [dirname basename]. cbn [fst] in Hhead.
  destruct (negb (glob.has_magic pathname)); [reflexivity |].
  destruct (dirname =? "")%string; [reflexivity |].
  destruct (negb (dirname =? pathname)%string && glob.has_magic dirname)
    eqn:Hrec; [| reflexivity].
  rewrite (IH m dirname true); [reflexivity | | lia].
  destruct Hhead as [-> | Hshort]; [| lia].
  rewrite String.eqb_refl in Hrec. discriminate.
Qed.

Lemma glob_fuel_enough (extra : nat) (pathname : string) :
  glob._iglob (S (String.length pathname) + extra) st pathname false
  = glob.glob st pathname.
Proof. unfold glob.glob. apply iglob_fuel_stable; lia. Qed.

End GlobFuel.

(* ===================================================================== *)
(** * Further properties: the bounded search                              *)
(* ===================================================================== *)

(** X1. A search with a depth of zero or less returns nothing; a search
    with a depth of one or more returns what [glob] finds for
    [source/pattern] followed by results that are the same whatever the
    source is: from the second level on the search starts at the root. *)
Theorem find_files_depth_levels (st : FS.t) (pattern : string) (depth : Z) :
  (depth <= 0 ->
   forall source, per_tools.find_files st source pattern (Some depth) = [])
  /\ (1 <= depth ->
      exists deeper,
        forall source,
          per_tools.find_files st source pattern (Some depth)
          = glob.glob st (posixpath.join3 source "" pattern) ++ deeper).
Proof.
  split.
  - intros Hdepth source. cbn [per_tools.find_files].
    unfold per_tools.range0. now rewrite seqZ_nil.
  - intros Hdepth. eexists. intros source.
    now apply find_files_depth_unfold.
Qed.

Lemma find_files_depth_levels_witness :
  per_tools.find_files Examples.library "/home/music" "*.mp3" (Some 0) = []
  /\ exists deeper,
       forall source,
         per_tools.find_files Examples.library source "*.mp3" (Some 3)
         = glob.glob Examples.library (posixpath.join3 source "" "*.mp3")
           ++ deeper.
Proof.
  split.
  - apply (proj1 (find_files_depth_levels Examples.library "*.mp3" 0)). lia.
  - apply (proj2 (find_files_depth_levels Examples.library "*.mp3" 3)). lia.
Defined.

(* ===================================================================== *)
(** * Further properties: the tag corrector                               *)
(* ===================================================================== *)

(** X2. Whenever [id3_correct] returns, with a list of files or after
    asking for a source, the list it returns is the list of the renamed
    paths of the files that pass the test, in the order of the files it
    processed: a path is returned exactly when it is the new path of
    such a file, and the list is not longer than the list of files. *)
Theorem id3_correct_returned_list (files : option (list string))
    (w w' : world) (returned : list string) :
  actions.id3_correct files w = inr (returned, w') ->
  exists found source w1,
    actions.request_source files w = inr (found, source, w1)
    /\ returned = accepted (sd w1) found
    /\ (forall x, In x returned
                  <-> exists file,
                        In file found
                        /\ actions.is_invalid (sd w1) (new_basename (sd w1) file)
                           = false
                        /\ x = tmp_file (sd w1) file)
    /\ (length returned <= length found)%nat.
Proof.
  intros Hrun.
  destruct (id3_correct_returns files w w' returned Hrun)
    as (found & source & w1 & Hrequest & ->).
  exists found, source, w1. repeat split; try assumption.
  - now apply in_accepted.
  - now apply in_accepted.
  - unfold accepted. rewrite length_map. apply List.filter_length_le.
Qed.

Lemma id3_correct_returned_list_witness :
  MoreId3Examples.returned
  = accepted Id3Examples.shared MoreId3Examples.files
  /\ MoreId3Examples.returned
     = ["/music/Artist Name - Song Title.mp3";
        "/music/Artist ft. Guest - Song.mp3"].
Proof.
  assert (Hrun : actions.id3_correct (Some MoreId3Examples.files)
                   (Id3Examples.session Id3Examples.shared)
                 = inr (MoreId3Examples.returned, MoreId3Examples.after))
    by (vm_compute; reflexivity).
  destruct (id3_correct_returned_list _ _ _ _ Hrun)
    as (found & source & w1 & Hrequest & Hreturned & _).
  cbn in Hrequest. injection Hrequest as <- _ <-.
  split; [exact Hreturned |]. vm_compute. reflexivity.
Defined.

(** X3. [id3_correct] does not add a missing ID3 header: when the first
    file of the list has a name that passes the test, can be renamed and
    is then a regular file without ID3 header, the run raises
    ID3NoHeaderError (the progress bar having printed). *)
Theorem id3_correct_needs_id3_header (w : world) (file : string)
    (rest : list string) (st1 : FS.t) (f : FS.file) :
  actions.is_invalid (sd w) (new_basename (sd w) file) = false ->
  FS.rename (actions.make_invalid_dir (fs w) (shared_data.source (sd w)))
            file (tmp_file (sd w) file)
  = inr st1 ->
  FS.stat st1 (tmp_file (sd w) file) = inr (FS.Reg f) ->
  FS.id3 f = None ->
  succeeds (ProgressBar.print
              (ProgressBar.new (Z.of_nat (length (file :: rest))))) ->
  actions.id3_correct (Some (file :: rest)) w = inl ID3NoHeaderError.
Proof.
  intros Hvalid Hren Hstat Hnone [out Hprint].
  unfold actions.id3_correct. cbn [actions.request_source bind ret].
  rewrite Hprint. cbn [bind foldM].
  unfold tmp_file, new_basename in *. unfold actions.id3_body.
  destruct (posixpath.split file) as [head basename]. cbn [fst snd] in *.
  rewrite Hren. cbn [bind]. rewrite Hvalid.
  unfold FS.EasyID3. rewrite Hstat, Hnone. reflexivity.
Qed.

Lemma id3_correct_needs_id3_header_witness :
  actions.id3_correct (Some ["/music/Artist - Song.mp3"]) BareExamples.session
  = inl ID3NoHeaderError.
Proof.
  pose (file := "/music/Artist - Song.mp3").
  assert (Hvalid : actions.is_invalid (sd BareExamples.session)
                     (new_basename (sd BareExamples.session) file) = false)
    by (vm_compute; reflexivity).
  destruct (FS.rename
              (actions.make_invalid_dir (fs BareExamples.session)
                 (shared_data.source (sd BareExamples.session)))
              file (tmp_file (sd BareExamples.session) file))
    as [e | st1] eqn:Hren; [vm_compute in Hren; discriminate |].
  assert (Hfile : FS.stat st1 (tmp_file (sd BareExamples.session) file)
                  = inr (FS.Reg (FS.mk_file None 1 "raw"))).
  { vm_compute in Hren. injection Hren as <-. vm_compute. reflexivity. }
  assert (Hprint : succeeds (ProgressBar.print
                               (ProgressBar.new (Z.of_nat (length [file])))))
    by (eexists; vm_compute; reflexivity).
  exact (id3_correct_needs_id3_header BareExamples.session file [] st1 _
           Hvalid Hren Hfile eq_refl Hprint).
Defined.

(* ===================================================================== *)
(** * Further properties: the file relocator                              *)
(* ===================================================================== *)

Section OnlyAdds.
Import FS.

Lemma only_adds_refl (st : t) : only_adds st st.
Proof. repeat split; eauto. Qed.

Lemma only_adds_trans (st1 st2 st3 : t) :
  only_adds st1 st2 -> only_adds st2 st3 -> only_adds st1 st3.
Proof.
  intros (Hc1 & Hd1 & Hr1) (Hc2 & Hd2 & Hr2). repeat split.
  - congruence.
  - intros q m Hq. destruct (Hd1 q m Hq) as [m' Hq']. eauto.
  - intros q f Hq. destruct (Hr1 q f Hq) as [f' Hq']. eauto.
Qed.

Lemma only_adds_dirs_kept (st st' : t) : only_adds st st' -> dirs_kept st st'.
Proof. intros (Hc & Hd & _). now split. Qed.

(** A node put where there was none, or a file put where a file was. *)
Lemma only_adds_insert (st : t) (p : path) (n : node) :
  p <> [] ->
  match lookup st p, n with
  | None, _ => True
  | Some (Reg _), Reg _ => True
  | Some (Dir _), Dir _ => True
  | _, _ => False
  end ->
  only_adds st (with_nodes st (<[p := n]> (nodes st))).
Proof.
  intros Hp Hkind. repeat split.
  - intros q m Hq. destruct (decide (q = p)) as [-> | Hne].
    + rewrite Hq in Hkind. destruct n as [m' | f]; [| destruct Hkind].
      exists m'. rewrite lookup_with_nodes by exact Hp. apply lookup_insert_eq.
    + exists m. destruct q as [| x q]; [exact Hq |].
      rewrite lookup_with_nodes by discriminate.
      now rewrite lookup_insert_ne.
  - intros q f Hq. destruct (decide (q = p)) as [-> | Hne].
    + rewrite Hq in Hkind. destruct n as [m' | f']; [destruct Hkind |].
      exists f'. rewrite lookup_with_nodes by exact Hp. apply lookup_insert_eq.
    + exists f. destruct q as [| x q]; [discriminate |].
      rewrite lookup_with_nodes by discriminate.
      now rewrite lookup_insert_ne.
Qed.

Lemma mkdir_only_adds (st st' : t) (s : string) :
  mkdir st s = inr st' -> only_adds st st'.
Proof.
  unfold mkdir. destruct (resolve st s) as [e | [p slash]]; [discriminate |].
  cbn [bind fst]. destruct (lookup st p) eqn:Hp; [discriminate |].
  intros H. injection H as <-. apply only_adds_insert.
  - intros ->. discriminate.
  - now rewrite Hp.
Qed.

Lemma copy2_only_adds (st st' : t) (src dst : string) :
  copy2 st src dst = inr st' -> only_adds st st'.
Proof.
  unfold copy2. destruct (samefile st src _); [discriminate |].
  destruct (stat st src) as [e | [m | f]]; try discriminate.
  cbn [bind]. destruct (resolve st _) as [e | [p slash]]; [discriminate |].
  cbn [bind fst snd].
  destruct (lookup st p) as [[m | g] |] eqn:Hp; [discriminate | |];
    (destruct slash; [discriminate |]);
    intros H; injection H as <-; apply only_adds_insert;
    try (intros ->; discriminate); now rewrite Hp.
Qed.

(** What exists keeps existing, and directories stay directories. *)
Lemma only_adds_stat (st st' : t) (s : string) (n : node) :
  only_adds st st' ->
  stat st s = inr n ->
  exists n', stat st' s = inr n'
             /\ glob.is_dir_node n' = glob.is_dir_node n.
Proof.
  intros Hadds. unfold stat.
  destruct (resolve st s) as [e | [p slash]] eqn:Hres; [discriminate |].
  rewrite (resolve_kept st st' s _ (only_adds_dirs_kept _ _ Hadds) Hres).
  cbn [bind fst snd]. destruct Hadds as (_ & Hd & Hr).
  destruct (lookup st p) as [[m | f] |] eqn:Hp; [| | discriminate].
  - intros H. injection H as <-. destruct (Hd p m Hp) as [m' ->]. eauto.
  - destruct slash; [discriminate |]. intros H. injection H as <-.
    destruct (Hr p f Hp) as [f' ->]. eauto.
Qed.

End OnlyAdds.

Section CopyLoop.
Import actions.

Lemma transfer_body_copy_only_adds (destination file : string)
    (s s' : FS.t * ProgressBar.t) :
  transfer_body FS.copy2 destination s file = inr s' ->
  only_adds (fst s) (fst s').
Proof.
  destruct s as [st pg]. unfold transfer_body.
  destruct (artist_of st file) as [e | artist]; [discriminate |].
  cbn [bind].
  destruct (mkdir_exist_ok st _) as [e | st1] eqn:Hmkdir; [discriminate |].
  cbn [bind].
  destruct (ProgressBar.inc_and_print pg); [discriminate |].
  cbn [bind ret]. intros H. injection H as <-. cbn [fst].
  assert (H1 : only_adds st st1).
  { unfold mkdir_exist_ok in Hmkdir.
    destruct (FS.mkdir st _) as [e | st2] eqn:Hmk.
    - destruct e; try discriminate. injection Hmkdir as <-.
      apply only_adds_refl.
    - injection Hmkdir as <-. exact (mkdir_only_adds _ _ _ Hmk). }
  apply (only_adds_trans _ _ _ H1). unfold attempt.
  destruct (FS.copy2 st1 file _) eqn:Hcopy; [apply only_adds_refl |].
  exact (copy2_only_adds _ _ _ _ Hcopy).
Qed.

Lemma transfer_loop_copy_only_adds (destination : string)
    (files : list string) (s s' : FS.t * ProgressBar.t) :
  foldM (transfer_body FS.copy2 destination) files s = inr s' ->
  only_adds (fst s) (fst s').
Proof.
  revert s. induction files as [| file files IH]; intros s; cbn [foldM].
  - intros H. injection H as <-. apply only_adds_refl.
  - destruct (transfer_body FS.copy2 destination s file) as [e | s1] eqn:Hbody;
      [discriminate |].
    cbn [bind]. intros Hrest.
    apply (only_adds_trans _ (fst s1)).
    + exact (transfer_body_copy_only_adds destination file _ _ Hbody).
    + now apply IH.
Qed.

Lemma transfer_all_copy_only_adds (destination : string)
    (files : list string) (st st' : FS.t) :
  transfer_all FS.copy2 destination files st = inr st' ->
  only_adds st st'.
Proof.
  unfold transfer_all. destruct (ProgressBar.print _); [discriminate |].
  cbn [bind].
  destruct (foldM _ files _) as [e | s'] eqn:Hloop; [discriminate |].
  cbn [bind ret]. intros H. injection H as <-.
  exact (transfer_loop_copy_only_adds _ _ _ _ Hloop).
Qed.

Lemma ask_existing_lines (st : FS.t) (default current : json.value)
    (lines lines' : list string) (x : string) :
  ask_existing st default current lines = inr (x, lines') ->
  FS.exists_ st x = true.
Proof.
  revert current. induction lines as [| l lines IH]; intros current;
    cbn [ask_existing]; destruct (as_path current) as [e | y];
    try discriminate; cbn [bind];
    destruct (FS.exists_ st y) eqn:Hy; try discriminate.
  - intros H. now injection H as <- _.
  - intros H. now injection H as <- _.
  - apply IH.
Qed.

Lemma request_directory_fs (key : string) (w w' : world) (dir : string) :
  request_directory key w = inr (dir, w') ->
  fs w' = fs w /\ sd w' = sd w /\ config w' = config w
  /\ FS.exists_ (fs w) dir = true.
Proof.
  unfold request_directory.
  destruct (getitem _ key) as [e | default]; [discriminate |]. cbn [bind].
  unfold input. destruct (stdin w) as [| line rest]; [discriminate |].
  cbn [bind ret]. 
  destruct (ask_existing _ _ _ _) as [e | [d lines]] eqn:Hask; [discriminate |].
  cbn [bind ret]. intros H. injection H as <- <-. repeat split.
  exact (ask_existing_lines _ _ _ _ _ _ Hask).
Qed.

Lemma request_source_fs (files : option (list string)) (w w' : world)
    (found : list string) (source : option string) :
  request_source files w = inr (found, source, w') ->
  fs w' = fs w /\ config w' = config w.
Proof.
  destruct files as [files |]; cbn [request_source].
  - intros H. now injection H as _ _ <-.
  - destruct (request_directory "source" w) as [e | [src w1]] eqn:Hdir;
      [discriminate |].
    cbn [bind]. destruct (request_directory_fs _ _ _ _ Hdir) as (Hfs & _ & Hc & _).
    unfold input. destruct (stdin w1) as [| line rest]; [discriminate |].
    cbn [bind ret].
    destruct (ask_depth line _) as [e | [depth lines]]; [discriminate |].
    cbn [bind ret]. intros H. injection H as _ _ <-. cbn. auto.
Qed.

End CopyLoop.

(** X4. [file_copy] only adds to the file tree: when it returns, every
    path that existed still exists, every directory is still a directory
    and every regular file still a regular file (possibly overwritten);
    and it returns the list it was given. *)
Theorem file_copy_only_adds (files : option (list string)) (w w' : world)
    (returned : list string) :
  actions.file_copy files w = inr (returned, w') ->
  only_adds (fs w) (fs w')
  /\ (forall s, FS.exists_ (fs w) s = true -> FS.exists_ (fs w') s = true)
  /\ (forall s, FS.isdir (fs w) s = true -> FS.isdir (fs w') s = true)
  /\ (forall given, files = Some given -> returned = given).
Proof.
  unfold actions.file_copy, actions.transfer_files.
  destruct (actions.request_source files w) as [e | [[found source] w1]]
    eqn:Hsource; [discriminate |].
  cbn [bind].
  destruct (actions.request_directory "destination" w1) as [e | [dest w2]]
    eqn:Hdest; [discriminate |].
  cbn [bind].
  destruct (actions.transfer_all FS.copy2 dest found (fs w2)) as [e | st]
    eqn:Hloop; [discriminate |].
  cbn [bind ret]. intros H. injection H as <- <-. cbn [fs with_fs].
  destruct (request_source_fs _ _ _ _ _ Hsource) as [Hfs1 _].
  destruct (request_directory_fs _ _ _ _ Hdest) as (Hfs2 & _).
  rewrite Hfs2, Hfs1 in Hloop.
  pose proof (transfer_all_copy_only_adds _ _ _ _ Hloop) as Hadds.
  split; [exact Hadds |]. split; [| split].
  - intros s. unfold FS.exists_.
    destruct (FS.stat (fs w) s) as [e | n] eqn:Hs; [discriminate |].
    destruct (only_adds_stat _ _ s n Hadds Hs) as (n' & -> & _). reflexivity.
  - intros s. unfold FS.isdir.
    destruct (FS.stat (fs w) s) as [e | n] eqn:Hs; [discriminate |].
    destruct (only_adds_stat _ _ s n Hadds Hs) as (n' & -> & Hkind).
    destruct n, n'; try discriminate; reflexivity.
  - intros given ->. cbn in Hsource. now injection Hsource as <- _ _.
Qed.

Lemma file_copy_only_adds_witness :
  FS.exists_ (fs RerunExamples.after_first_run) "/home/music/rock/b.mp3" = true
  /\ FS.isdir (fs RerunExamples.after_first_run) "/tmp" = true.
Proof.
  assert (Hrun : actions.file_copy (Some RerunExamples.files)
                                   RerunExamples.session
                 = inr (RerunExamples.files, RerunExamples.after_first_run))
    by (vm_compute; reflexivity).
  destruct (file_copy_only_adds _ _ _ _ Hrun) as (_ & Hexists & Hisdir & _).
  split.
  - apply Hexists. vm_compute. reflexivity.
  - apply Hisdir. vm_compute. reflexivity.
Defined.

(** X5. The loop of [file_copy], [file_move] and [find_uploads] needs an
    artist tag on every file: when the first file has an ID3 header
    without the key [artist] the run raises KeyError, and when it is a
    regular file without ID3 header it raises ID3NoHeaderError, before
    any folder is made. *)
Theorem transfer_needs_artist_tag
    (transfer : FS.t -> string -> string -> result FS.t)
    (destination file : string) (rest : list string) (st : FS.t)
    (f : FS.file) :
  FS.stat st file = inr (FS.Reg f) ->
  succeeds (ProgressBar.print
              (ProgressBar.new (Z.of_nat (length (file :: rest))))) ->
  (forall tags, FS.id3 f = Some tags -> tags !! "artist" = None ->
                actions.transfer_all transfer destination (file :: rest) st
                = inl (KeyError "artist"))
  /\ (FS.id3 f = None ->
      actions.transfer_all transfer destination (file :: rest) st
      = inl ID3NoHeaderError).
Proof.
  intros Hstat [out Hprint].
  unfold actions.transfer_all. rewrite Hprint. cbn [bind foldM].
  unfold actions.transfer_body, actions.artist_of, FS.EasyID3.
  rewrite Hstat. split.
  - intros tags -> Hartist. cbn [bind ret]. now rewrite Hartist.
  - intros ->. reflexivity.
Qed.

Lemma transfer_needs_artist_tag_witness :
  actions.transfer_all FS.copy2 "/out" ["/in/untagged.mp3"]
                       CopyErrorExamples.tree
  = inl (KeyError "artist").
Proof.
  assert (Hstat : FS.stat CopyErrorExamples.tree "/in/untagged.mp3"
                  = inr (FS.Reg (FS.mk_file (Some {["title" := ["T"]]}) 1 "u")))
    by (vm_compute; reflexivity).
  assert (Hprint : succeeds (ProgressBar.print
                               (ProgressBar.new
                                  (Z.of_nat (length ["/in/untagged.mp3"])))))
    by (eexists; vm_compute; reflexivity).
  apply (proj1 (transfer_needs_artist_tag FS.copy2 "/out" "/in/untagged.mp3"
                  [] CopyErrorExamples.tree _ Hstat Hprint)
           {["title" := ["T"]]} eq_refl).
  vm_compute. reflexivity.
Defined.

Section SlashInArtist.
Import FS.

Lemma isdir_inv (st : t) (s : string) :
  isdir st s = true ->
  exists p slash m, resolve st s = inr (p, slash) /\ lookup st p = Some (Dir m).
Proof.
  unfold isdir, stat.
  destruct (resolve st s) as [e | [p slash]]; [discriminate |].
  cbn [bind fst snd].
  destruct (lookup st p) as [[m | f] |] eqn:Hp; try discriminate.
  - eauto.
  - destruct slash; discriminate.
Qed.

(** A folder inside a folder that is not there cannot be made. *)
Lemma mkdir_below_missing (st : t) (destination a b : string) :
  plain a -> plain b ->
  isdir st destination = true ->
  stat st (posixpath.join destination a) = inl FileNotFoundError ->
  mkdir st (posixpath.join destination (a +:+ "/" +:+ b))
  = inl FileNotFoundError.
Proof.
  intros Ha Hb Hdir Hmissing.
  destruct (isdir_inv st destination Hdir) as (p & slash & m & Hres & Hp).
  pose proof (resolve_nonempty st destination _ Hres) as Hdest.
  destruct (resolve_join_child st destination a p slash m Ha Hres Hp)
    as [slash' Hres'].
  assert (Hnone : lookup st (p ++ [a]) = None).
  { unfold stat in Hmissing. rewrite Hres' in Hmissing.
    cbn [bind fst snd] in Hmissing.
    destruct (lookup st (p ++ [a])) as [[d | f] |]; try discriminate;
      [| reflexivity].
    destruct slash'; discriminate. }
  assert (Hrel : startswith "/" (a +:+ "/" +:+ b) = false).
  { rewrite (startswith_append "" a _ (proj1 Ha)).
    now apply startswith_plain. }
  unfold mkdir, resolve in *.
  rewrite (eqb_empty_false destination Hdest) in Hres.
  rewrite (eqb_empty_false _ (join_nonempty destination _ Hdest)).
  rewrite (startswith_join destination _ Hdest Hrel).
  rewrite (components_join destination _ Hrel).
  change (a +:+ "/" +:+ b) with (a +:+ String "/" b).
  rewrite components_slash_middle, (components_plain a Ha),
    (components_plain b Hb), namei_app.
  destruct (namei st _ (components destination)) as [e | p0];
    [discriminate |].
  cbn [bind ret] in Hres. injection Hres as -> _.
  cbn [bind app namei]. rewrite Hp.
  destruct Ha as (_ & Hdot & Hdotdot & _).
  apply String.eqb_neq in Hdot, Hdotdot. rewrite Hdot, Hdotdot.
  now rewrite Hnone.
Qed.

(** ** Renaming a regular file away *)

Lemma samefile_same_path (st : t) (src dst : string) (p : path) (f : file) :
  resolve st src = inr (p, false) ->
  resolve st dst = inr (p, false) ->
  lookup st p = Some (Reg f) ->
  samefile st src dst = true.
Proof.
  intros Hsrc Hdst Hp. unfold samefile.
  rewrite (stat_resolved st src p f Hsrc Hp), (stat_resolved st dst p f Hdst Hp).
  rewrite Hsrc, Hdst. cbn [fst]. now apply bool_decide_eq_true_2.
Qed.

Lemma rename_reg_gone (st st' : t) (src dst : string) (f : file) :
  stat st src = inr (Reg f) ->
  rename st src dst = inr st' ->
  samefile st src dst = false ->
  exists_ st' src = false.
Proof.
  intros Hstat Hrename Hother.
  destruct (stat_reg_inv st src f Hstat) as (ps & Hps & Hlook).
  destruct (lookup_nonroot st ps f Hlook) as [Hps_nonroot Hnodes].
  unfold rename in Hrename. rewrite Hstat, Hps in Hrename.
  cbn [bind fst snd] in Hrename.
  destruct (resolve st dst) as [e | [pd slash]] eqn:Hpd; [discriminate |].
  cbn [bind fst snd] in Hrename.
  assert (Hkind : forall d, lookup st pd <> Some (Dir d))
    by (intros d Hd; rewrite Hd in Hrename; discriminate).
  assert (Hmoved : st' = with_nodes st (<[pd := Reg f]> (delete ps (nodes st)))
                   /\ ps <> pd).
  { destruct (lookup st pd) as [[d | g] |];
      [discriminate | |]; (destruct slash; [discriminate |]);
      (case_bool_decide as Hsame;
       [ subst pd;
         rewrite (samefile_same_path st src dst ps f Hps Hpd Hlook) in Hother;
         discriminate
       | injection Hrename as <-; now split ]). }
  destruct Hmoved as [-> Hne].
  assert (Hkept : dirs_kept st (with_nodes st (<[pd := Reg f]> (delete ps (nodes st))))).
  { destruct (dirs_kept_insert_reg st pd f (delete ps (nodes st)))
      as [Hk | [d Hd]]; [| exact Hk | now destruct (Hkind d)].
    intros q d Hq Hneq. rewrite lookup_delete_ne.
    - destruct q; [congruence | exact Hq].
    - intros <-. rewrite Hlook in Hq. discriminate. }
  unfold exists_, stat.
  rewrite (resolve_kept st _ src _ Hkept Hps). cbn [bind fst].
  rewrite lookup_with_nodes by exact Hps_nonroot.
  rewrite lookup_insert_ne by congruence.
  now rewrite lookup_delete_eq.
Qed.

End SlashInArtist.

(** X6. An artist name with a slash stops the loop of [file_copy],
    [file_move] and [find_uploads]: when the first file has the artist
    [a/b] (two plain names) and the destination directory has no entry
    [a], making the folder raises FileNotFoundError, which the loop does
    not catch. *)
Theorem artist_with_slash_aborts
    (transfer : FS.t -> string -> string -> result FS.t)
    (destination file a b : string) (rest : list string) (st : FS.t) :
  plain a -> plain b ->
  actions.artist_of st file = inr (a +:+ "/" +:+ b) ->
  FS.isdir st destination = true ->
  FS.stat st (posixpath.join destination a) = inl FileNotFoundError ->
  succeeds (ProgressBar.print
              (ProgressBar.new (Z.of_nat (length (file :: rest))))) ->
  actions.transfer_all transfer destination (file :: rest) st
  = inl FileNotFoundError.
Proof.
  intros Ha Hb Hartist Hdir Hmissing [out Hprint].
  unfold actions.transfer_all. rewrite Hprint. cbn [bind foldM].
  unfold actions.transfer_body. rewrite Hartist. cbn [bind].
  unfold actions.mkdir_exist_ok.
  now rewrite (mkdir_below_missing st destination a b Ha Hb Hdir Hmissing).
Qed.

Lemma artist_with_slash_aborts_witness :
  actions.transfer_all FS.copy2 "/out" ["/in/thunder.mp3"]
                       CopyErrorExamples.tree
  = inl FileNotFoundError.
Proof.
  assert (Ha : plain "AC")
    by (repeat split; try discriminate; repeat constructor).
  assert (Hb : plain "DC")
    by (repeat split; try discriminate; repeat constructor).
  assert (Hartist : actions.artist_of CopyErrorExamples.tree "/in/thunder.mp3"
                    = inr ("AC" +:+ "/" +:+ "DC"))
    by (vm_compute; reflexivity).
  assert (Hdir : FS.isdir CopyErrorExamples.tree "/out" = true)
    by (vm_compute; reflexivity).
  assert (Hmissing : FS.stat CopyErrorExamples.tree (posixpath.join "/out" "AC")
                     = inl FileNotFoundError)
    by (vm_compute; reflexivity).
  assert (Hprint : succeeds (ProgressBar.print
                               (ProgressBar.new
                                  (Z.of_nat (length ["/in/thunder.mp3"])))))
    by (eexists; vm_compute; reflexivity).
  exact (artist_with_slash_aborts FS.copy2 "/out" "/in/thunder.mp3" "AC" "DC"
           [] CopyErrorExamples.tree Ha Hb Hartist Hdir Hmissing Hprint).
Defined.

(** X7. An iteration of [file_move] on a regular file whose target
    [destination/artist/basename] is not a directory and not the file
    itself, and to which the file can be renamed, returns with the file
    at the target and nothing left at the path of the list: the paths
    [file_move] returns are those the files were moved away from. *)
Theorem file_move_leaves_the_listed_path
    (destination file artist : string) (st st1 st2 : FS.t)
    (pg : ProgressBar.t) (f : FS.file) (r : ProgressBar.t * string) :
  actions.artist_of st file = inr artist ->
  actions.mkdir_exist_ok st (posixpath.join destination artist) = inr st1 ->
  FS.stat st1 file = inr (FS.Reg f) ->
  FS.isdir st1 (posixpath.join3 destination artist (posixpath.basename file))
  = false ->
  FS.samefile st1 file
              (posixpath.join3 destination artist (posixpath.basename file))
  = false ->
  FS.rename st1 file
            (posixpath.join3 destination artist (posixpath.basename file))
  = inr st2 ->
  ProgressBar.inc_and_print pg = inr r ->
  actions.transfer_body FS.move destination (st, pg) file = inr (st2, fst r)
  /\ FS.stat st2 (posixpath.join3 destination artist (posixpath.basename file))
     = inr (FS.Reg f)
  /\ FS.exists_ st2 file = false.
Proof.
  intros Hartist Hmkdir Hstat Hnodir Hother Hrename Hprint. split; [| split].
  - unfold actions.transfer_body. rewrite Hartist. cbn [bind].
    rewrite Hmkdir. cbn [bind]. unfold actions.attempt, FS.move.
    rewrite Hnodir, Hrename, Hprint. reflexivity.
  - now destruct (rename_reg st1 st2 _ _ f Hstat Hrename).
  - exact (rename_reg_gone st1 st2 _ _ f Hstat Hrename Hother).
Qed.

Lemma file_move_leaves_the_listed_path_witness :
  exists st2 pg,
    actions.transfer_body FS.move "/out" (MoveExamples.tree, ProgressBar.new 1)
                          "/in/song.mp3"
    = inr (st2, pg)
    /\ FS.exists_ st2 "/out/Band/song.mp3" = true
    /\ FS.exists_ st2 "/in/song.mp3" = false.
Proof.
  pose (file := "/in/song.mp3").
  assert (Hartist : actions.artist_of MoveExamples.tree file = inr "Band")
    by (vm_compute; reflexivity).
  destruct (actions.mkdir_exist_ok MoveExamples.tree
              (posixpath.join "/out" "Band")) as [e | st1] eqn:Hmkdir;
    [vm_compute in Hmkdir; discriminate |].
  vm_compute in Hmkdir. injection Hmkdir as Hst1.
  assert (Hmkdir : actions.mkdir_exist_ok MoveExamples.tree
                     (posixpath.join "/out" "Band") = inr st1)
    by (rewrite <- Hst1; vm_compute; reflexivity).
  assert (Hstat : FS.stat st1 file
                  = inr (FS.Reg (FS.mk_file (Some {["artist" := ["Band"]]}) 7 "s")))
    by (rewrite <- Hst1; vm_compute; reflexivity).
  assert (Hnodir : FS.isdir st1 (posixpath.join3 "/out" "Band"
                                   (posixpath.basename file)) = false)
    by (rewrite <- Hst1; vm_compute; reflexivity).
  assert (Hother : FS.samefile st1 file
                     (posixpath.join3 "/out" "Band" (posixpath.basename file))
                   = false)
    by (rewrite <- Hst1; vm_compute; reflexivity).
  destruct (FS.rename st1 file
              (posixpath.join3 "/out" "Band" (posixpath.basename file)))
    as [e | st2] eqn:Hrename;
    [rewrite <- Hst1 in Hrename; vm_compute in Hrename; discriminate |].
  destruct (ProgressBar.inc_and_print (ProgressBar.new 1)) as [e | r] eqn:Hprint;
    [vm_compute in Hprint; discriminate |].
  destruct (file_move_leaves_the_listed_path
              "/out" file "Band" MoveExamples.tree st1 st2 (ProgressBar.new 1)
              _ r Hartist Hmkdir Hstat Hnodir Hother Hrename Hprint)
    as (Hbody & Hmoved & Hgone).
  exists st2, (fst r). split; [exact Hbody |]. split; [| exact Hgone].
  unfold FS.exists_.
  change "/out/Band/song.mp3"
    with (posixpath.join3 "/out" "Band" (posixpath.basename file)).
  now rewrite Hmoved.
Defined.

(* ===================================================================== *)
(** * Further properties: dates and the upload finder                     *)
(* ===================================================================== *)

Section Calendar.
Import time.

Lemma tuple_gt_cons (x y : Z) (a b : list Z) :
  tuple_gt (x :: a) (y :: b) = if x =? y then tuple_gt a b else y <? x.
Proof. reflexivity. Qed.

Lemma date_ltb_spec (y1 m1 d1 y2 m2 d2 : Z) :
  date_ltb (y1, m1, d1) (y2, m2, d2) = true
  <-> y1 < y2 \/ (y1 = y2 /\ (m1 < m2 \/ (m1 = m2 /\ d1 < d2))).
Proof.
  unfold date_ltb. rewrite !tuple_gt_cons. cbn [tuple_gt].
  destruct (Z.eqb_spec y2 y1), (Z.eqb_spec m2 m1), (Z.eqb_spec d2 d1),
    (Z.ltb_spec y1 y2), (Z.ltb_spec m1 m2), (Z.ltb_spec d1 d2);
    split; intros Hgoal; try discriminate; try reflexivity; lia.
Qed.

Lemma date_ltb_trans (a b c : Z * Z * Z) :
  date_ltb a b = true -> date_ltb b c = true -> date_ltb a c = true.
Proof.
  destruct a as [[y1 m1] d1], b as [[y2 m2] d2], c as [[y3 m3] d3].
  rewrite !date_ltb_spec. lia.
Qed.

Lemma date_ltb_irrefl (a : Z * Z * Z) : date_ltb a a = false.
Proof.
  destruct a as [[y m] d]. destruct (date_ltb (y, m, d) (y, m, d)) eqn:H;
    [| reflexivity].
  apply date_ltb_spec in H. lia.
Qed.

Lemma all_days_spec (f : Z -> bool) (n : nat) :
  forall lo, all_days f lo n = true ->
  forall k, lo <= k < lo + Z.of_nat n -> f k = true.
Proof.
  induction n as [| n IH]; intros lo Hall k Hk; [lia |].
  cbn [all_days] in Hall. apply andb_prop in Hall as [Hlo Hrest].
  destruct (Z.eq_dec k lo) as [-> | Hne]; [exact Hlo |].
  apply (IH (lo + 1) Hrest). lia.
Qed.

Lemma calendar_increases_true :
  all_days next_is_later first_day (Z.to_nat (last_day - first_day)) = true.
Proof. vm_compute. reflexivity. Qed.

Lemma calendar_round_trips_true :
  forallb year_round_trips (seqZ 1969 100) = true.
Proof. vm_compute. reflexivity. Qed.

Lemma civil_succ (n : Z) :
  first_day <= n < last_day ->
  date_ltb (civil_from_days n) (civil_from_days (n + 1)) = true.
Proof.
  intros Hn.
  apply (all_days_spec next_is_later _ _ calendar_increases_true n).
  unfold first_day, last_day in *. lia.
Qed.

(** Over the days checked, a later day has a later date. *)
Lemma civil_increasing (n k : Z) :
  0 <= k -> first_day <= n -> n + k < last_day ->
  date_ltb (civil_from_days n) (civil_from_days (n + k + 1)) = true.
Proof.
  intros Hk Hlo. revert k Hk.
  apply (natlike_ind (fun k => n + k < last_day ->
                               date_ltb (civil_from_days n)
                                        (civil_from_days (n + k + 1)) = true)).
  - intros Hhi. rewrite Z.add_0_r. apply civil_succ. lia.
  - intros k Hk IH Hhi.
    apply (date_ltb_trans _ (civil_from_days (n + k + 1))).
    + apply IH. lia.
    + replace (n + Z.succ k + 1) with (n + k + 1 + 1) by lia.
      apply civil_succ. lia.
Qed.

Lemma civil_lt (n n' : Z) :
  first_day <= n -> n < n' -> n' <= last_day ->
  date_ltb (civil_from_days n) (civil_from_days n') = true.
Proof.
  intros Hlo Hlt Hhi.
  replace n' with (n + (n' - n - 1) + 1) by lia.
  apply civil_increasing; lia.
Qed.

Lemma civil_of_date (y m d : Z) :
  1969 <= y <= 2068 -> 1 <= m <= 12 -> 1 <= d <= days_in_month y m ->
  civil_from_days (days_from_civil y m d) = (y, m, d)
  /\ first_day < days_from_civil y m d < last_day.
Proof.
  intros Hy Hm Hd.
  assert (Hin : forall lo len v, lo <= v < lo + len -> In v (seqZ lo len))
    by (intros lo len v Hv; apply list_elem_of_In, elem_of_seqZ; lia).
  assert (Hd31 : d <= 31).
  { unfold days_in_month in Hd.
    destruct (m =? 2); [destruct (is_leap y) |];
      [lia | lia | destruct (_ || _); lia]. }
  pose proof (proj1 (forallb_forall year_round_trips (seqZ 1969 100))
                calendar_round_trips_true y (Hin 1969 100 y ltac:(lia))) as Hyear.
  pose proof (proj1 (forallb_forall _ _) Hyear m (Hin 1 12 m ltac:(lia)))
    as Hmonth.
  pose proof (proj1 (forallb_forall _ _) Hmonth d (Hin 1 31 d ltac:(lia)))
    as H.
  unfold date_round_trip in H.
  destruct (Z.leb_spec d (days_in_month y m)); [| lia]. cbn [implb] in H.
  destruct (civil_from_days (days_from_civil y m d)) as [[y' m'] d'].
  apply andb_prop in H as [H Hhi]. apply andb_prop in H as [H Hlo].
  apply andb_prop in H as [H Hd']. apply andb_prop in H as [Hy' Hm'].
  apply Z.eqb_eq in Hy', Hm', Hd'. apply Z.ltb_lt in Hlo, Hhi.
  subst. split; [reflexivity | lia].
Qed.

(** ** What [strptime] returns *)

Lemma digit_value_range (c : ascii) :
  is_digit c = true -> 0 <= digit_value c <= 9.
Proof.
  unfold is_digit, digit_value. intros H. apply andb_prop in H as [Hlo Hhi].
  apply Nat.leb_le in Hlo, Hhi. lia.
Qed.

Lemma field_range (hi : Z) (s : string) (v : Z) :
  9 <= hi -> field hi s = Some v -> 1 <= v <= hi.
Proof.
  intros Hhi. unfold field.
  destruct (list_ascii_of_string s) as [| a [| b [| c l]]]; try discriminate.
  - destruct (is_digit a) eqn:Ha; [| discriminate].
    destruct (a =? "0")%char eqn:Hzero; [discriminate |]. cbn [negb andb].
    intros H. injection H as <-.
    pose proof (digit_value_range a Ha) as Hrange.
    assert (digit_value a <> 0); [| lia].
    unfold digit_value. intros Hv.
    apply Ascii.eqb_neq in Hzero. apply Hzero.
    unfold is_digit in Ha. apply andb_prop in Ha as [Hlo _].
    apply Nat.leb_le in Hlo.
    rewrite <- (ascii_nat_embedding a).
    replace (nat_of_ascii a) with 48%nat by lia. reflexivity.
  - destruct (is_digit a && is_digit b
              && (1 <=? 10 * digit_value a + digit_value b)
              && (10 * digit_value a + digit_value b <=? hi)) eqn:Hok;
      [| discriminate].
    intros H. injection H as <-.
    apply andb_prop in Hok as [Hok Hle]. apply andb_prop in Hok as [_ Hge].
    apply Z.leb_le in Hle, Hge. lia.
Qed.

Lemma year2_range (s : string) (y : Z) :
  year2 s = Some y -> 1969 <= y <= 2068.
Proof.
  unfold year2.
  destruct (list_ascii_of_string s) as [| a [| b [| c l]]]; try discriminate.
  destruct (is_digit a) eqn:Ha; [| discriminate].
  destruct (is_digit b) eqn:Hb; [| discriminate]. cbn [andb].
  pose proof (digit_value_range a Ha) as Hra.
  pose proof (digit_value_range b Hb) as Hrb.
  intros Hsome. injection Hsome as <-.
  destruct (Z.leb_spec 69 (10 * digit_value a + digit_value b)); lia.
Qed.

Lemma strptime_inv (s : string) (ts : struct_time) :
  strptime s = inr ts ->
  exists y m d,
    ts = [y; m; d; 0; 0; 0; weekday (days_from_civil y m d); yday y m d; -1]
    /\ 1969 <= y <= 2068 /\ 1 <= m <= 12 /\ 1 <= d <= days_in_month y m.
Proof.
  unfold strptime.
  destruct (split_on "/" s) as [| ds [| ms [| ys [| x l]]]]; try discriminate.
  destruct (field 31 ds) as [d |] eqn:Hd; [| discriminate].
  destruct (field 12 ms) as [m |] eqn:Hm; [| discriminate].
  destruct (year2 ys) as [y |] eqn:Hy; [| discriminate].
  destruct (Z.leb_spec d (days_in_month y m)) as [Hle | Hgt]; [| discriminate].
  intros Hts. injection Hts as <-. exists y, m, d.
  pose proof (field_range 31 ds d ltac:(lia) Hd).
  pose proof (field_range 12 ms m ltac:(lia) Hm).
  pose proof (year2_range ys y Hy).
  repeat split; lia.
Qed.

(** ** The comparison of [find_uploads] *)

Lemma tuple_gt_dates (y m d y' m' d' : Z) (rest rest' : list Z) :
  date_ltb (y, m, d) (y', m', d') = true ->
  tuple_gt (y' :: m' :: d' :: rest') (y :: m :: d :: rest) = true
  /\ tuple_gt (y :: m :: d :: rest) (y' :: m' :: d' :: rest') = false.
Proof.
  intros H. apply date_ltb_spec in H. rewrite !tuple_gt_cons.
  destruct (Z.eqb_spec y' y), (Z.eqb_spec m' m), (Z.eqb_spec d' d),
    (Z.eqb_spec y y'), (Z.eqb_spec m m'), (Z.eqb_spec d d'),
    (Z.ltb_spec y y'), (Z.ltb_spec m m'), (Z.ltb_spec d d'),
    (Z.ltb_spec y' y), (Z.ltb_spec m' m), (Z.ltb_spec d' d);
    split; try reflexivity; lia.
Qed.

Lemma tuple_gt_same_day (y m d w yd h mi s : Z) :
  0 <= h -> 0 <= mi -> 0 <= s ->
  tuple_gt [y; m; d; h; mi; s; w; yd; 0] [y; m; d; 0; 0; 0; w; yd; -1] = true.
Proof.
  intros Hh Hmi Hs. rewrite !tuple_gt_cons, !Z.eqb_refl.
  destruct (Z.eqb_spec h 0); [| apply Z.ltb_lt; lia].
  destruct (Z.eqb_spec mi 0); [| apply Z.ltb_lt; lia].
  destruct (Z.eqb_spec s 0); [| apply Z.ltb_lt; lia].
  reflexivity.
Qed.

(** Against the tuple [strptime] returns, [gmtime(secs)] is greater
    exactly from the first second of the day on. *)
Lemma gmtime_gt_strptime (s : string) (ts : struct_time) (secs : Z) :
  strptime s = inr ts ->
  86400 * first_day <= secs < 86400 * last_day ->
  tuple_gt (gmtime secs) ts = (midnight ts <=? secs).
Proof.
  intros Hparse Hrange.
  destruct (strptime_inv s ts Hparse) as (y & m & d & -> & Hy & Hm & Hd).
  destruct (civil_of_date y m d Hy Hm Hd) as [Hcivil Hday].
  unfold midnight. cbn [nth].
  set (D := days_from_civil y m d) in *.
  unfold gmtime.
  pose proof (Z.div_mod secs 86400 ltac:(lia)) as Hdm.
  pose proof (Z.mod_pos_bound secs 86400 ltac:(lia)) as Hmod.
  set (n := secs / 86400) in *. set (r := secs mod 86400) in *.
  assert (Hn : first_day <= n < last_day) by (unfold first_day, last_day in *; lia).
  destruct (Z.lt_trichotomy n D) as [Hlt | [Heq | Hgt]].
  - pose proof (civil_lt n D ltac:(lia) Hlt ltac:(lia)) as Hdates.
    rewrite Hcivil in Hdates.
    destruct (civil_from_days n) as [[y' m'] d'].
    destruct (tuple_gt_dates y' m' d' y m d
                [r / 3600; r mod 3600 / 60; r mod 60; weekday n; yday y' m' d'; 0]
                [0; 0; 0; weekday D; yday y m d; -1] Hdates) as [_ ->].
    symmetry. apply Z.leb_gt. lia.
  - rewrite Heq, Hcivil.
    rewrite tuple_gt_same_day.
    + symmetry. apply Z.leb_le. lia.
    + apply Z.div_pos; lia.
    + apply Z.div_pos; [| lia]. apply Z.mod_pos_bound. lia.
    + apply Z.mod_pos_bound. lia.
  - pose proof (civil_lt D n ltac:(lia) Hgt ltac:(lia)) as Hdates.
    rewrite Hcivil in Hdates.
    destruct (civil_from_days n) as [[y' m'] d'].
    destruct (tuple_gt_dates y m d y' m' d'
                [0; 0; 0; weekday D; yday y m d; -1]
                [r / 3600; r mod 3600 / 60; r mod 60; weekday n; yday y' m' d'; 0]
                Hdates) as [-> _].
    symmetry. apply Z.leb_le. lia.
Qed.

End Calendar.

Section Uploads.
Import actions.

Lemma filter_uploads_cons (st : FS.t) (ts : time.struct_time) (f : string)
    (found : list string) (m : Z) :
  FS.getmtime st f = inr m ->
  filter_uploads st ts (f :: found)
  = do files <- filter_uploads st ts found;
    ret (if time.tuple_gt (time.gmtime m) ts then f :: files else files).
Proof.
  intros Hm. cbn [filter_uploads]. unfold modified_after. rewrite Hm.
  reflexivity.
Qed.

Lemma filter_uploads_were_found (st : FS.t) (ts : time.struct_time)
    (found kept : list string) :
  filter_uploads st ts found = inr kept ->
  forall file, In file kept ->
    In file found /\ exists m, FS.getmtime st file = inr m.
Proof.
  revert kept. induction found as [| f found IH]; intros kept.
  - cbn [filter_uploads]. intros Hret. injection Hret as <-. intros file [].
  - destruct (FS.getmtime st f) as [e | m] eqn:Hm.
    + cbn [filter_uploads]. unfold modified_after. rewrite Hm. discriminate.
    + rewrite (filter_uploads_cons st ts f found m Hm).
      generalize (time.tuple_gt (time.gmtime m) ts). intros keep.
      destruct (filter_uploads st ts found) as [e | rest]; [discriminate |].
      cbn [bind ret]. intros Hret. injection Hret as <-.
      intros file Hin.
      assert (Hcases : file = f \/ In file rest).
      { destruct keep; [destruct Hin as [<- | Hin] |]; auto. }
      destruct Hcases as [-> | Hrest].
      * split; [now left | now exists m].
      * destruct (IH rest eq_refl file Hrest) as [Hfound Hmtime].
        split; [now right | exact Hmtime].
Qed.

(** What [find_uploads] leaves behind. *)
Lemma find_uploads_frame (w w' : world) (returned : list string) :
  find_uploads w = inr (returned, w') ->
  only_adds (fs w) (fs w')
  /\ config w' = config w /\ sd w' = sd w
  /\ (forall file, In file returned ->
        exists m, FS.getmtime (fs w) file = inr m).
Proof.
  unfold find_uploads.
  destruct (request_directory "destination" w) as [e | [source w1]]
    eqn:Hsource; [discriminate |].
  cbn [bind].
  destruct (request_directory_fs _ _ _ _ Hsource) as (Hfs1 & Hsd1 & Hc1 & _).
  unfold input at 1.
  destruct (stdin w1) as [| date lines1] eqn:Hin1; [discriminate |].
  cbn [bind ret].
  destruct (time.strptime (strip date)) as [e | ts]; [discriminate |].
  cbn [bind fs with_stdin].
  destruct (filter_uploads (fs w1) ts _) as [e | files] eqn:Hfilter;
    [discriminate |].
  cbn [bind]. unfold input at 1. cbn [stdin with_stdin].
  destruct lines1 as [| answer lines2]; [discriminate |].
  cbn [bind ret].
  assert (Hfiles : forall file, In file files ->
                     exists m, FS.getmtime (fs w) file = inr m).
  { intros file Hfile. rewrite <- Hfs1.
    exact (proj2 (filter_uploads_were_found _ _ _ _ Hfilter file Hfile)). }
  destruct (answer =? "y")%string; cbn [negb].
  - unfold input at 1. cbn [stdin with_stdin].
    destruct lines2 as [| destination lines3]; [discriminate |].
    cbn [bind ret fs stdin with_stdin].
    destruct (ask_existing_plain (fs w1) destination lines3)
      as [e | [dest lines4]]; [discriminate |].
    cbn [bind fs with_stdin].
    destruct (transfer_all FS.copy2 dest files (fs w1)) as [e | st]
      eqn:Hloop; [discriminate |].
    cbn [bind ret]. intros Hret. injection Hret as <- <-.
    cbn [fs config sd with_fs with_stdin]. rewrite Hfs1 in Hloop.
    split; [exact (transfer_all_copy_only_adds _ _ _ _ Hloop) |].
    split; [exact Hc1 |]. split; [exact Hsd1 | exact Hfiles].
  - intros Hret. injection Hret as <- <-.
    cbn [fs config sd with_stdin]. rewrite Hfs1.
    split; [apply only_adds_refl |].
    split; [exact Hc1 |]. split; [exact Hsd1 | exact Hfiles].
Qed.

End Uploads.

(** X8. The filter of [find_uploads] keeps exactly the files modified at
    or after 00:00:00 UTC of the day entered: for a date that [strptime]
    accepts and files whose modification times lie between 1967-04-06 and
    2082-04-02, the list comprehension returns the files whose
    modification time is at least the first second of that day, in the
    order found. *)
Theorem uploads_kept_from_midnight (st : FS.t) (entered : string)
    (ts : time.struct_time) (found : list string) (mtime : string -> Z) :
  time.strptime entered = inr ts ->
  (forall file, In file found ->
     FS.getmtime st file = inr (mtime file)
     /\ 86400 * first_day <= mtime file < 86400 * last_day) ->
  actions.filter_uploads st ts found
  = inr (List.filter (fun file => midnight ts <=? mtime file) found).
Proof.
  intros Hparse. induction found as [| f found IH]; intros Hfound;
    [reflexivity |].
  cbn [List.filter].
  destruct (Hfound f (or_introl eq_refl)) as [Hm Hrange].
  rewrite (filter_uploads_cons st ts f found (mtime f) Hm).
  rewrite (gmtime_gt_strptime entered ts (mtime f) Hparse Hrange).
  rewrite IH by (intros file Hin; apply Hfound; now right).
  reflexivity.
Qed.

Lemma uploads_kept_from_midnight_witness :
  actions.filter_uploads UploadExamples.tree
    [1970; 1; 2; 0; 0; 0; 4; 2; -1]
    ["/music/before.mp3"; "/music/exact.mp3"; "/music/later.mp3"]
  = inr ["/music/exact.mp3"; "/music/later.mp3"].
Proof.
  assert (Hparse : time.strptime "02/01/70"
                   = inr [1970; 1; 2; 0; 0; 0; 4; 2; -1])
    by (vm_compute; reflexivity).
  pose (mtime := fun file : string =>
                   match FS.getmtime UploadExamples.tree file with
                   | inr m => m
                   | inl _ => 0
                   end).
  assert (Hfound : forall file,
             In file ["/music/before.mp3"; "/music/exact.mp3";
                      "/music/later.mp3"] ->
             FS.getmtime UploadExamples.tree file = inr (mtime file)
             /\ 86400 * first_day <= mtime file < 86400 * last_day).
  { intros file [<- | [<- | [<- | []]]]; vm_compute; repeat split;
      discriminate. }
  exact (uploads_kept_from_midnight UploadExamples.tree "02/01/70" _ _ mtime
           Hparse Hfound).
Defined.

(** X9. For a date [strptime] accepts, [gmtime] of the first second of
    that day has the same year, month, day, time, weekday and day of the
    year as the tuple [strptime] returned, and [tm_isdst] 0 where
    [strptime] has -1: the two differ in the last field only. *)
Theorem strptime_and_gmtime_differ_in_isdst (entered : string)
    (ts : time.struct_time) :
  time.strptime entered = inr ts ->
  time.gmtime (midnight ts) = firstn 8 ts ++ [0]
  /\ nth 8 ts 0 = -1.
Proof.
  intros Hparse.
  destruct (strptime_inv entered ts Hparse) as (y & m & d & -> & Hy & Hm & Hd).
  destruct (civil_of_date y m d Hy Hm Hd) as [Hcivil _].
  split; [| reflexivity].
  unfold midnight, time.gmtime. cbn [nth firstn app].
  rewrite (Z.mul_comm 86400), Z.div_mul, Z.mod_mul by lia.
  rewrite Hcivil. reflexivity.
Qed.

Lemma strptime_and_gmtime_differ_in_isdst_witness :
  time.gmtime (midnight [1970; 1; 2; 0; 0; 0; 4; 2; -1])
  = firstn 8 [1970; 1; 2; 0; 0; 0; 4; 2; -1] ++ [0]
  /\ nth 8 [1970; 1; 2; 0; 0; 0; 4; 2; -1] 0 = -1.
Proof.
  assert (Hparse : time.strptime "02/01/70"
                   = inr [1970; 1; 2; 0; 0; 0; 4; 2; -1])
    by (vm_compute; reflexivity).
  exact (strptime_and_gmtime_differ_in_isdst "02/01/70" _ Hparse).
Defined.

(** X10. [find_uploads] only adds to the file tree: when it returns,
    every path that existed still exists and every directory is still a
    directory; it changes neither the settings document nor the shared
    data; and every file it returns is a file of the tree it started on,
    with a modification time. *)
Theorem find_uploads_only_adds (w w' : world) (returned : list string) :
  actions.find_uploads w = inr (returned, w') ->
  (forall s, FS.exists_ (fs w) s = true -> FS.exists_ (fs w') s = true)
  /\ (forall s, FS.isdir (fs w) s = true -> FS.isdir (fs w') s = true)
  /\ config w' = config w /\ sd w' = sd w
  /\ (forall file, In file returned ->
        exists m, FS.getmtime (fs w) file = inr m).
Proof.
  intros Hrun.
  destruct (find_uploads_frame w w' returned Hrun)
    as (Hadds & Hconfig & Hsd & Hfiles).
  split; [| split; [| auto]].
  - intros s. unfold FS.exists_.
    destruct (FS.stat (fs w) s) as [e | n] eqn:Hs; [discriminate |].
    destruct (only_adds_stat _ _ s n Hadds Hs) as (n' & -> & _). reflexivity.
  - intros s. unfold FS.isdir.
    destruct (FS.stat (fs w) s) as [e | n] eqn:Hs; [discriminate |].
    destruct (only_adds_stat _ _ s n Hadds Hs) as (n' & -> & Hkind).
    destruct n, n'; try discriminate; reflexivity.
Qed.

Lemma find_uploads_only_adds_witness :
  exists m, FS.getmtime UploadExamples.tree "/music/later.mp3" = inr m.
Proof.
  destruct (actions.find_uploads
              (UploadExamples.session [""; "02/01/70"; "y"; "/out"]))
    as [e | [returned w']] eqn:Hrun; [vm_compute in Hrun; discriminate |].
  assert (Hin : In "/music/later.mp3" returned).
  { vm_compute in Hrun. injection Hrun as <- _. right. now left. }
  destruct (find_uploads_only_adds _ _ _ Hrun) as (_ & _ & _ & _ & Hfiles).
  exact (Hfiles _ Hin).
Defined.

(* ===================================================================== *)
(** * Further properties: the script and its settings                     *)
(* ===================================================================== *)

Section SettingsFile.
Import handle_music.
Variable re_compile : string -> result re.pattern.
Variable get_artwork :
  option (list string) -> world -> result (list string * world).

Lemma id3_correct_config (files : option (list string)) (w w' : world)
    (result : list string) :
  actions.id3_correct files w = inr (result, w') -> config w' = config w.
Proof.
  unfold actions.id3_correct.
  destruct (actions.request_source files w) as [e | [[found source] w1]]
    eqn:Hsource; [discriminate |].
  cbn [bind]. destruct (ProgressBar.print _); [discriminate |]. cbn [bind].
  destruct (foldM _ _ _) as [e | [[st result'] pg]]; [discriminate |].
  cbn [bind ret]. intros H. injection H as _ <-. cbn [config with_fs].
  exact (proj2 (request_source_fs _ _ _ _ _ Hsource)).
Qed.

Lemma transfer_files_config
    (transfer : FS.t -> string -> string -> result FS.t)
    (files : option (list string)) (w w' : world) (result : list string) :
  actions.transfer_files transfer files w = inr (result, w') ->
  config w' = config w.
Proof.
  unfold actions.transfer_files.
  destruct (actions.request_source files w) as [e | [[found source] w1]]
    eqn:Hsource; [discriminate |].
  cbn [bind].
  destruct (actions.request_directory "destination" w1) as [e | [dest w2]]
    eqn:Hdest; [discriminate |].
  cbn [bind].
  destruct (actions.transfer_all transfer dest found (fs w2)); [discriminate |].
  cbn [bind ret]. intros H. injection H as _ <-. cbn [config with_fs].
  destruct (request_directory_fs _ _ _ _ Hdest) as (_ & _ & -> & _).
  exact (proj2 (request_source_fs _ _ _ _ _ Hsource)).
Qed.

(** The start-up reads five keys of the document only. *)
Lemma compile_setting_insert (d : gmap string json.value)
    (key k : string) (v : json.value) :
  k <> key ->
  compile_setting re_compile (<[k := v]> d) key
  = compile_setting re_compile d key.
Proof.
  intros Hk. unfold compile_setting, actions.getitem.
  now rewrite lookup_insert_ne.
Qed.

Lemma startup_document (w : world) (d : gmap string json.value) :
  config w = Document d ->
  startup re_compile w
  = do _ <- actions.getitem d "logging";
    do and_ <- compile_setting re_compile d "and_tags";
    do feat <- compile_setting re_compile d "feature_tags";
    do feat2 <- compile_setting re_compile d "feature2_tags";
    do invalid <- compile_setting re_compile d "invalid_tags";
    ret (with_sd w (shared_data.mk d and_ feat feat2 invalid None)).
Proof. intros Hd. unfold startup. now rewrite Hd. Qed.

(** A document that differs in [source] or [destination] only starts up
    as well. *)
Lemma startup_other_key (w v : world) (d : gmap string json.value)
    (k : string) (val : json.value) (w0 : world) :
  k = "source" \/ k = "destination" ->
  config w = Document d ->
  startup re_compile w = inr w0 ->
  config v = Document (<[k := val]> d) ->
  exists v0, startup re_compile v = inr v0.
Proof.
  intros Hk Hw Hstart Hv.
  rewrite (startup_document w d Hw) in Hstart.
  rewrite (startup_document v _ Hv).
  assert (Hne : k <> "logging" /\ k <> "and_tags" /\ k <> "feature_tags"
                /\ k <> "feature2_tags" /\ k <> "invalid_tags")
    by (destruct Hk as [-> | ->]; repeat split; discriminate).
  destruct Hne as (H1 & H2 & H3 & H4 & H5).
  rewrite !compile_setting_insert by assumption.
  unfold actions.getitem at 1. rewrite lookup_insert_ne by assumption.
  unfold actions.getitem at 1 in Hstart.
  destruct (d !! "logging"); [| discriminate]. cbn [bind ret] in *.
  destruct (compile_setting re_compile d "and_tags"); [discriminate |].
  destruct (compile_setting re_compile d "feature_tags"); [discriminate |].
  destruct (compile_setting re_compile d "feature2_tags"); [discriminate |].
  destruct (compile_setting re_compile d "invalid_tags"); [discriminate |].
  cbn [bind ret]. eauto.
Qed.

(** One run of [set_source] or [set_dest]. *)
Lemma set_path_run (prog command key arg : string) (w w' : world) :
  (command = "set_source" /\ key = "source")
  \/ (command = "set_dest" /\ key = "destination") ->
  main re_compile get_artwork [prog; command; arg] w = inr w' ->
  exists d, config w = Document d
            /\ config w' = Document (<[key := json.Str (absolute w arg)]> d)
            /\ fs w' = fs w /\ home w' = home w /\ passwd w' = passwd w.
Proof.
  intros Hcommand. unfold main.
  destruct (startup re_compile w) as [e | w0] eqn:Hstart; [discriminate |].
  cbn [bind].
  destruct (startup_inv re_compile w w0 Hstart)
    as (d & Hd & Hd0 & Hsettings & Hfs & Hhome & Hpasswd).
  pose proof (absolute_startup w w0 arg Hfs Hhome Hpasswd) as Habs.
  intros Hrun. exists d. split; [exact Hd |].
  assert (Hw' : w' = set_path key arg w0).
  { destruct Hcommand as [[-> ->] | [-> ->]]; cbn in Hrun;
      now injection Hrun as <-. }
  subst w'. unfold set_path, dump_settings, set_setting.
  cbn [config with_sd]. rewrite Hd0.
  cbn [config fs home passwd with_config with_sd shared_data.settings
       shared_data.with_settings].
  rewrite Hsettings, Habs. auto.
Qed.

Lemma set_path_runs (prog command key arg : string) (w : world) :
  (command = "set_source" /\ key = "source")
  \/ (command = "set_dest" /\ key = "destination") ->
  (exists w0, startup re_compile w = inr w0) ->
  exists w', main re_compile get_artwork [prog; command; arg] w = inr w'.
Proof.
  intros Hcommand [w0 Hstart]. unfold main. rewrite Hstart. cbn [bind].
  destruct Hcommand as [[-> ->] | [-> ->]]; cbn; eauto.
Qed.

End SettingsFile.

(** X11. The settings document is written by [set_source], [set_dest],
    [log_off] and [log_on] only: whenever the script returns on another
    command, and so for [id3], [copy], [move] and [uploads], the document
    is the one it started with ([get_artwork], which is not modelled, is
    assumed to leave it alone). *)
Theorem settings_written_by_settings_commands_only
    (re_compile : string -> result re.pattern)
    (get_artwork :
       option (list string) -> world -> result (list string * world))
    (args : list string) (w w' : world) :
  (forall files w0 found w1,
      get_artwork files w0 = inr (found, w1) -> config w1 = config w0) ->
  handle_music.main re_compile get_artwork args w = inr w' ->
  ~ In (nth 1 args "") ["set_source"; "set_dest"; "log_off"; "log_on"] ->
  config w' = config w.
Proof.
  intros Hart. unfold handle_music.main.
  destruct (handle_music.startup re_compile w) as [e | w0] eqn:Hstart;
    [discriminate |].
  cbn [bind].
  destruct (startup_inv re_compile w w0 Hstart) as (d & Hd & Hd0 & _).
  rewrite Hd, <- Hd0. clear Hd Hd0 Hstart.
  destruct args as [| prog [| a rest]]; [discriminate | |];
    cbn [handle_music.dispatch nth].
  { intros H _. now injection H as <-. }
  intros Hrun Hcommand.
  assert (Hne : (a =? "set_source")%string = false
                /\ (a =? "set_dest")%string = false
                /\ (a =? "log_off")%string = false
                /\ (a =? "log_on")%string = false).
  { repeat split; apply String.eqb_neq; intros ->; apply Hcommand; cbn; auto. }
  destruct Hne as (Hsource & Hdest & Hoff & Hon).
  rewrite Hsource, Hdest, Hoff, Hon in Hrun. cbn [orb] in Hrun.
  destruct (a =? "help")%string; [now injection Hrun as <- |].
  destruct rest as [| b [| c rest]]; try (now injection Hrun as <-).
  destruct (existsb _ _); [now injection Hrun as <- |].
  destruct (a =? "art")%string.
  { destruct (get_artwork None w0) as [e | [found w1]] eqn:Hrun1;
      [discriminate |].
    cbn in Hrun. injection Hrun as <-. exact (Hart _ _ _ _ Hrun1). }
  destruct (a =? "id3")%string.
  { destruct (actions.id3_correct None w0) as [e | [found w1]] eqn:Hrun1;
      [discriminate |].
    cbn in Hrun. injection Hrun as <-. exact (id3_correct_config _ _ _ _ Hrun1). }
  destruct (a =? "copy")%string.
  { destruct (actions.file_copy None w0) as [e | [found w1]] eqn:Hrun1;
      [discriminate |].
    cbn in Hrun. injection Hrun as <-.
    exact (transfer_files_config _ _ _ _ _ Hrun1). }
  destruct (a =? "move")%string.
  { destruct (actions.file_move None w0) as [e | [found w1]] eqn:Hrun1;
      [discriminate |].
    cbn in Hrun. injection Hrun as <-.
    exact (transfer_files_config _ _ _ _ _ Hrun1). }
  destruct (a =? "all")%string.
  { destruct (actions.id3_correct None w0) as [e | [found1 w1]] eqn:Hrun1;
      [discriminate |].
    cbn [bind fst snd] in Hrun.
    destruct (get_artwork (Some found1) w1) as [e | [found2 w2]] eqn:Hrun2;
      [discriminate |].
    cbn [bind fst snd] in Hrun.
    destruct (actions.file_copy (Some found2) w2) as [e | [found3 w3]]
      eqn:Hrun3; [discriminate |].
    cbn in Hrun. injection Hrun as <-.
    rewrite (transfer_files_config _ _ _ _ _ Hrun3), (Hart _ _ _ _ Hrun2).
    exact (id3_correct_config _ _ _ _ Hrun1). }
  destruct (a =? "uploads")%string.
  { destruct (actions.find_uploads w0) as [e | [found w1]] eqn:Hrun1;
      [discriminate |].
    cbn in Hrun. injection Hrun as <-.
    exact (proj1 (proj2 (find_uploads_frame _ _ _ Hrun1))). }
  destruct (a =? "clear")%string; [discriminate |].
  destruct (a =? "log_info")%string; now injection Hrun as <-.
Qed.

Lemma settings_written_by_settings_commands_only_witness :
  exists w',
    handle_music.main SettingsExamples.compile_literal
                      SettingsExamples.no_artwork
                      ["handle_music.py"; "uploads"] ScriptExamples.start
    = inr w'
    /\ config w' = Document SettingsExamples.document.
Proof.
  destruct (handle_music.main SettingsExamples.compile_literal
              SettingsExamples.no_artwork
              ["handle_music.py"; "uploads"] ScriptExamples.start)
    as [e | w'] eqn:Hrun; [vm_compute in Hrun; discriminate |].
  exists w'. split; [reflexivity |].
  apply (settings_written_by_settings_commands_only
           SettingsExamples.compile_literal SettingsExamples.no_artwork
           ["handle_music.py"; "uploads"] ScriptExamples.start w').
  - intros files w0 found w1 Hart. discriminate Hart.
  - exact Hrun.
  - cbn. intros [H | [H | [H | [H | []]]]]; discriminate H.
Defined.

(** X12. [set_source] and [set_dest] commute: two runs of the script, one
    with [set_source a] and then one with [set_dest b], leave the same
    settings document as the runs in the other order, which succeed as
    well. *)
Theorem set_source_and_set_dest_commute
    (re_compile : string -> result re.pattern)
    (get_artwork :
       option (list string) -> world -> result (list string * world))
    (prog a b : string) (w w1 w2 : world) :
  handle_music.main re_compile get_artwork [prog; "set_source"; a] w
  = inr w1 ->
  handle_music.main re_compile get_artwork [prog; "set_dest"; b] w1
  = inr w2 ->
  exists v1 v2,
    handle_music.main re_compile get_artwork [prog; "set_dest"; b] w
    = inr v1
    /\ handle_music.main re_compile get_artwork [prog; "set_source"; a] v1
       = inr v2
    /\ config v2 = config w2.
Proof.
  intros Hrun1 Hrun2.
  destruct (set_path_run re_compile get_artwork prog "set_source" "source"
              a w w1 (or_introl (conj eq_refl eq_refl)) Hrun1)
    as (d & Hd & Hd1 & Hfs1 & Hhome1 & Hpasswd1).
  destruct (set_path_run re_compile get_artwork prog "set_dest" "destination"
              b w1 w2 (or_intror (conj eq_refl eq_refl)) Hrun2)
    as (d1 & Hd1' & Hd2 & _).
  rewrite Hd1 in Hd1'. injection Hd1' as <-.
  rewrite (absolute_startup w w1 b Hfs1 Hhome1 Hpasswd1) in Hd2.
  assert (Hstart : exists w0, handle_music.startup re_compile w = inr w0).
  { unfold handle_music.main in Hrun1.
    destruct (handle_music.startup re_compile w); [discriminate | eauto]. }
  destruct (set_path_runs re_compile get_artwork prog "set_dest"
              "destination" b w (or_intror (conj eq_refl eq_refl)) Hstart)
    as [v1 Hv1].
  destruct (set_path_run re_compile get_artwork prog "set_dest" "destination"
              b w v1 (or_intror (conj eq_refl eq_refl)) Hv1)
    as (d' & Hd' & Hdv1 & Hfsv & Hhomev & Hpasswdv).
  rewrite Hd in Hd'. injection Hd' as <-.
  destruct Hstart as [w0 Hstart].
  pose proof (startup_other_key re_compile w v1 d "destination" _ w0
                (or_intror eq_refl) Hd Hstart Hdv1) as Hstartv.
  destruct (set_path_runs re_compile get_artwork prog "set_source"
              "source" a v1 (or_introl (conj eq_refl eq_refl)) Hstartv)
    as [v2 Hv2].
  destruct (set_path_run re_compile get_artwork prog "set_source" "source"
              a v1 v2 (or_introl (conj eq_refl eq_refl)) Hv2)
    as (d' & Hd' & Hdv2 & _).
  rewrite Hdv1 in Hd'. injection Hd' as <-.
  rewrite (absolute_startup w v1 a Hfsv Hhomev Hpasswdv) in Hdv2.
  exists v1, v2. split; [exact Hv1 |]. split; [exact Hv2 |].
  rewrite Hdv2, Hd2. f_equal. now apply insert_insert_ne.
Qed.

Lemma set_source_and_set_dest_commute_witness :
  exists v1 v2,
    handle_music.main SettingsExamples.compile_literal
                      SettingsExamples.no_artwork
                      ["handle_music.py"; "set_dest"; "out"]
                      SettingsExamples.start
    = inr v1
    /\ handle_music.main SettingsExamples.compile_literal
                         SettingsExamples.no_artwork
                         ["handle_music.py"; "set_source"; "~/Music"] v1
       = inr v2.
Proof.
  destruct (handle_music.main SettingsExamples.compile_literal
              SettingsExamples.no_artwork
              ["handle_music.py"; "set_source"; "~/Music"]
              SettingsExamples.start)
    as [e | w1] eqn:Hrun1; [vm_compute in Hrun1; discriminate |].
  destruct (handle_music.main SettingsExamples.compile_literal
              SettingsExamples.no_artwork
              ["handle_music.py"; "set_dest"; "out"] w1)
    as [e | w2] eqn:Hrun2.
  { exfalso. vm_compute in Hrun1. injection Hrun1 as <-.
    vm_compute in Hrun2. discriminate. }
  destruct (set_source_and_set_dest_commute _ _ _ _ _ _ _ _ Hrun1 Hrun2)
    as (v1 & v2 & Hv1 & Hv2 & _).
  exists v1, v2. split; assumption.
Defined.

(** X13. The later of two runs of [set_source] decides: after
    [set_source a] and then [set_source b] the settings document is the
    one [set_source b] alone would have left; and the same for
    [set_dest]. *)
Theorem last_set_path_wins
    (re_compile : string -> result re.pattern)
    (get_artwork :
       option (list string) -> world -> result (list string * world))
    (prog command a b : string) (w w1 w2 : world) :
  command = "set_source" \/ command = "set_dest" ->
  handle_music.main re_compile get_artwork [prog; command; a] w = inr w1 ->
  handle_music.main re_compile get_artwork [prog; command; b] w1 = inr w2 ->
  exists v,
    handle_music.main re_compile get_artwork [prog; command; b] w = inr v
    /\ config v = config w2.
Proof.
  intros Hcommand Hrun1 Hrun2.
  assert (Hkey : exists key,
             (command = "set_source" /\ key = "source")
             \/ (command = "set_dest" /\ key = "destination"))
    by (destruct Hcommand as [-> | ->]; eexists; eauto).
  destruct Hkey as [key Hkey].
  destruct (set_path_run re_compile get_artwork prog command key a w w1
              Hkey Hrun1)
    as (d & Hd & Hd1 & Hfs1 & Hhome1 & Hpasswd1).
  destruct (set_path_run re_compile get_artwork prog command key b w1 w2
              Hkey Hrun2)
    as (d1 & Hd1' & Hd2 & _).
  rewrite Hd1 in Hd1'. injection Hd1' as <-.
  rewrite (absolute_startup w w1 b Hfs1 Hhome1 Hpasswd1) in Hd2.
  assert (Hstart : exists w0, handle_music.startup re_compile w = inr w0).
  { unfold handle_music.main in Hrun1.
    destruct (handle_music.startup re_compile w); [discriminate | eauto]. }
  destruct (set_path_runs re_compile get_artwork prog command key b w
              Hkey Hstart) as [v Hv].
  destruct (set_path_run re_compile get_artwork prog command key b w v
              Hkey Hv)
    as (d' & Hd' & Hdv & _).
  rewrite Hd in Hd'. injection Hd' as <-.
  exists v. split; [exact Hv |].
  rewrite Hdv, Hd2. f_equal. symmetry. apply insert_insert_eq.
Qed.

Lemma last_set_path_wins_witness :
  exists v,
    handle_music.main SettingsExamples.compile_literal
                      SettingsExamples.no_artwork
                      ["handle_music.py"; "set_source"; "/b"]
                      SettingsExamples.start
    = inr v.
Proof.
  destruct (handle_music.main SettingsExamples.compile_literal
              SettingsExamples.no_artwork
              ["handle_music.py"; "set_source"; "/a"]
              SettingsExamples.start)
    as [e | w1] eqn:Hrun1; [vm_compute in Hrun1; discriminate |].
  destruct (handle_music.main SettingsExamples.compile_literal
              SettingsExamples.no_artwork
              ["handle_music.py"; "set_source"; "/b"] w1)
    as [e | w2] eqn:Hrun2.
  { exfalso. vm_compute in Hrun1. injection Hrun1 as <-.
    vm_compute in Hrun2. discriminate. }
  destruct (last_set_path_wins _ _ _ "set_source" _ _ _ _ _
              (or_introl eq_refl) Hrun1 Hrun2) as (v & Hv & _).
  exists v. exact Hv.
Defined.
